(** * LibOVRKernel: the logging sink (OVR_Log.cpp) and the Win32 lock
      (OVR_Atomic.cpp)

    A shallow embedding of the two translation units and the properties
    their specification states about them.

    - C memory is a list of characters indexed from the base of one
      allocation; an access outside the allocation is a fault ([None]).
    - Process-wide state (the global [Log*], function-local statics, the
      output channels) is an explicit record threaded through every call.
    - What the sources take from headers that are not part of the
      translation units (enumerator values, [IsDebugMessage], the buffer
      size, the string helpers of OVR_Std.h) is a class of parameters or a
      definition marked as modelled. *)

From Stdlib Require Import ZArith Ascii String List Bool Lia DecimalString.
From stdpp Require Import base numbers list option gmap strings.

Local Open Scope Z_scope.

(** ** C memory: one allocation of characters *)

Module CMem.

Abbreviation Mem := (list ascii).

Definition NUL : ascii := Ascii.zero.

Definition in_bounds (m : Mem) (p : Z) : bool :=
  (0 <=? p) && (p <? Z.of_nat (length m)).

(** [*(base + p)] *)
Definition load (m : Mem) (p : Z) : option ascii :=
  if in_bounds m p then m !! Z.to_nat p else None.

(** [*(base + p) = c] *)
Definition store (m : Mem) (p : Z) (c : ascii) : option Mem :=
  if in_bounds m p then Some (<[Z.to_nat p := c]> m) else None.

(** Consecutive stores of [bs] starting at [p]. *)
Fixpoint store_bytes (m : Mem) (p : Z) (bs : list ascii) : option Mem :=
  match bs with
  | [] => Some m
  | c :: bs' => m' ← store m p c; store_bytes m' (p + 1) bs'
  end.

(** The C string a character sequence denotes: everything before the
    first terminator. *)
Fixpoint cstring (l : list ascii) : list ascii :=
  match l with
  | [] => []
  | c :: l' => if Ascii.eqb c NUL then [] else c :: cstring l'
  end.

(** At most [room] leading characters of [s]; [room] is a machine size, so
    the count is kept in [Z]. *)
Fixpoint truncate (room : Z) (s : list ascii) : list ascii :=
  match s with
  | [] => []
  | c :: s' => if room <=? 0 then [] else c :: truncate (room - 1) s'
  end.

(** Scan for the terminator from [p + n] on, reading at most up to
    [limit] characters when a limit is given. *)
Fixpoint scan_nul (fuel : nat) (m : Mem) (p n : Z) (limit : option Z)
  : option Z :=
  match fuel with
  | O => None
  | S fuel' =>
      if (match limit with Some k => k <=? n | None => false end) then Some n
      else
        c ← load m (p + n);
        if Ascii.eqb c NUL then Some n
        else scan_nul fuel' m p (n + 1) limit
  end.

End CMem.
Import CMem.

(** ** OVR_Std.h: the string helpers FormatLog calls *)

(** [size_t] arithmetic wraps at the width of the type. *)
Definition size_t_bits : Z := 64.
Definition wrap_size_t (z : Z) : Z := z mod 2 ^ size_t_bits.

(** Modelled from the spec: OVR_Std.h is not among the sources.
    [OVR_strlen(str)] is the string length of the C library: the index of
    the first terminator at or after [str]; running off the allocation is a
    fault. *)
Definition OVR_strlen (m : Mem) (str : Z) : option Z :=
  scan_nul (S (length m)) m str 0 None.

(** Modelled from the spec: OVR_Std.h is not among the sources. The
    helper is the "length-bounded copy": it writes at most [destsize]
    characters at [dest], a source that does not fit is truncated, and the
    result is terminated whenever [destsize] is not zero. *)
Definition OVR_strcpy (m : Mem) (dest destsize : Z) (src : list ascii)
  : option Mem :=
  if destsize <=? 0 then Some m
  else store_bytes m dest (truncate (destsize - 1) src ++ [NUL]).

(** Modelled from the spec: the "length-bounded vsprintf wrapper" of
    OVR_Std.h. [rendered] is the text the format string and its arguments
    expand to; at most [destsize - 1] characters of it are written,
    followed by the terminator. *)
Definition OVR_vsprintf (m : Mem) (dest destsize : Z) (rendered : list ascii)
  : option Mem :=
  if destsize <=? 0 then Some m
  else store_bytes m dest (truncate (destsize - 1) rendered ++ [NUL]).

(** Modelled from the spec: the "length-bounded concatenate" of OVR_Std.h.
    The current length of [dest] is looked for within [destsize]
    characters; the part of [src] that still fits before the last cell is
    appended and terminated, and nothing is written when [dest] has no
    terminator inside its capacity. *)
Definition OVR_strcat (m : Mem) (dest destsize : Z) (src : list ascii)
  : option Mem :=
  dlen ← scan_nul (S (length m)) m dest 0 (Some destsize);
  if destsize <=? dlen then Some m
  else store_bytes m (dest + dlen) (truncate (destsize - dlen - 1) src ++ [NUL]).

(** ** Arguments of a variadic call and the C library's rendering *)

Inductive va_arg : Type :=
| ArgInt (z : Z)
| ArgStr (s : list ascii)
| ArgChar (c : ascii).

Abbreviation va_list := (list va_arg).

(** ** What the translation unit takes from its headers and its build *)

Class LogHeader := {
  (* enum LogMessageType, OVR_Log.h *)
  Log_Text : Z;
  Log_Error : Z;
  Log_DebugText : Z;
  Log_Debug : Z;
  Log_Assert : Z;
  (* static bool Log::IsDebugMessage(LogMessageType) *)
  IsDebugMessage : Z → bool;
  (* enum { MaxLogBufferMessageSize } *)
  MaxLogBufferMessageSize : Z;
  (* the mask a default-constructed Log starts with *)
  DefaultLoggingMask : Z
}.

Class Build := {
  OVR_BUILD_DEBUG : bool;
  OVR_OS_WIN32 : bool;
  OVR_OS_ANDROID : bool;
  (* where the linker puts the function-local static of GetDefaultLog *)
  defaultLog_address : Z
}.

(** The C runtime: the expansion of a format string with its arguments
    ([vsnprintf] without a size limit), and the indeterminate contents an
    automatic array of [n] characters starts with. *)
Class Libc := {
  vformat : list ascii → va_list → list ascii;
  auto_array : Z → list ascii
}.

Definition cstr (s : string) : list ascii := list_ascii_of_string s.

(** The string literal holding one line feed. *)
Definition newline : list ascii := ["010"%char].

(** ** Log::FormatLog *)

Section FormatLog.
Context {hdr : LogHeader} {libc : Libc}.

(** The [switch] of FormatLog: the memory after the prefix has been
    written, and [addNewline]. *)
Definition FormatLog_prefix (buffer : Mem) (bufferSize : Z) (messageType : Z)
  : option (Mem * bool) :=
  if messageType =? Log_Error then
    m ← OVR_strcpy buffer 0 bufferSize (cstr "Error: "); Some (m, true)
  else if messageType =? Log_Debug then
    m ← OVR_strcpy buffer 0 bufferSize (cstr "Debug: "); Some (m, true)
  else if messageType =? Log_Assert then
    m ← OVR_strcpy buffer 0 bufferSize (cstr "Assert: "); Some (m, true)
  else if messageType =? Log_Text then
    m ← store buffer 0 NUL; Some (m, false)
  else if messageType =? Log_DebugText then
    m ← store buffer 0 NUL; Some (m, false)
  else
    m ← store buffer 0 NUL; Some (m, false).

(** [buffer] is the allocation the pointer argument points to the start of;
    the result is that allocation after the call. *)
Definition FormatLog (buffer : Mem) (bufferSize : Z) (messageType : Z)
    (fmt : list ascii) (argList : va_list) : option Mem :=
  '(m1, addNewline) ← FormatLog_prefix buffer bufferSize messageType;
  prefixLength ← OVR_strlen m1 0;
  let buffer2 := 0 + prefixLength in
  m2 ← OVR_vsprintf m1 buffer2 (wrap_size_t (bufferSize - prefixLength))
         (vformat fmt argList);
  if addNewline : bool then OVR_strcat m2 0 bufferSize newline
  else Some m2.

End FormatLog.

(** The prefix and the line end the [switch] of FormatLog selects. *)
Definition prefix_of {hdr : LogHeader} (messageType : Z) : list ascii :=
  if messageType =? Log_Error then cstr "Error: "
  else if messageType =? Log_Debug then cstr "Debug: "
  else if messageType =? Log_Assert then cstr "Assert: "
  else [].

Definition newline_of {hdr : LogHeader} (messageType : Z) : list ascii :=
  if (messageType =? Log_Error) || (messageType =? Log_Debug)
     || (messageType =? Log_Assert)
  then newline else [].

(** The five enumerators are five values: they label the cases of one
    [switch]. *)
Definition enumerators {hdr : LogHeader} : list Z :=
  [Log_Text; Log_Error; Log_DebugText; Log_Debug; Log_Assert].

(** ** Process state of the logger *)

Inductive android_LogPriority : Type :=
| ANDROID_LOG_DEBUG
| ANDROID_LOG_INFO
| ANDROID_LOG_ERROR.

(** One write to an output channel. *)
Inductive Output : Type :=
| fputs_stdout (text : list ascii)
| OutputDebugStringA (text : list ascii)
| android_log_write (prio : android_LogPriority) (tag text : list ascii).

(** class Log: its one data member. *)
Record Log : Type := { LoggingMask : Z }.

Record World : Type := {
  (* Log* volatile OVR_GlobalLog; 0 is the null pointer *)
  OVR_GlobalLog : Z;
  (* the Log objects alive, by address *)
  objects : gmap Z Log;
  (* static Log defaultLog (in GetDefaultLog): has it been constructed *)
  defaultLog_constructed : bool;
  (* static bool hasConsole (in DefaultLogOutput): None before the first call *)
  hasConsole : option bool;
  (* what the operating system answers now:
     GetStdHandle(STD_OUTPUT_HANDLE) != INVALID_HANDLE_VALUE, GetConsoleMode(...) *)
  os_StdHandle_valid : bool;
  os_GetConsoleMode : bool;
  (* how often FormatLog has been entered *)
  FormatLog_calls : nat;
  (* everything written so far, oldest first *)
  output : list Output
}.

Definition set_GlobalLog (p : Z) (w : World) : World :=
  {| OVR_GlobalLog := p; objects := objects w;
     defaultLog_constructed := defaultLog_constructed w;
     hasConsole := hasConsole w;
     os_StdHandle_valid := os_StdHandle_valid w;
     os_GetConsoleMode := os_GetConsoleMode w;
     FormatLog_calls := FormatLog_calls w; output := output w |}.

Definition set_objects (o : gmap Z Log) (w : World) : World :=
  {| OVR_GlobalLog := OVR_GlobalLog w; objects := o;
     defaultLog_constructed := defaultLog_constructed w;
     hasConsole := hasConsole w;
     os_StdHandle_valid := os_StdHandle_valid w;
     os_GetConsoleMode := os_GetConsoleMode w;
     FormatLog_calls := FormatLog_calls w; output := output w |}.

Definition set_defaultLog_constructed (b : bool) (w : World) : World :=
  {| OVR_GlobalLog := OVR_GlobalLog w; objects := objects w;
     defaultLog_constructed := b;
     hasConsole := hasConsole w;
     os_StdHandle_valid := os_StdHandle_valid w;
     os_GetConsoleMode := os_GetConsoleMode w;
     FormatLog_calls := FormatLog_calls w; output := output w |}.

Definition set_hasConsole (b : option bool) (w : World) : World :=
  {| OVR_GlobalLog := OVR_GlobalLog w; objects := objects w;
     defaultLog_constructed := defaultLog_constructed w;
     hasConsole := b;
     os_StdHandle_valid := os_StdHandle_valid w;
     os_GetConsoleMode := os_GetConsoleMode w;
     FormatLog_calls := FormatLog_calls w; output := output w |}.

Definition enter_FormatLog (w : World) : World :=
  {| OVR_GlobalLog := OVR_GlobalLog w; objects := objects w;
     defaultLog_constructed := defaultLog_constructed w;
     hasConsole := hasConsole w;
     os_StdHandle_valid := os_StdHandle_valid w;
     os_GetConsoleMode := os_GetConsoleMode w;
     FormatLog_calls := S (FormatLog_calls w); output := output w |}.

Definition emit (o : Output) (w : World) : World :=
  {| OVR_GlobalLog := OVR_GlobalLog w; objects := objects w;
     defaultLog_constructed := defaultLog_constructed w;
     hasConsole := hasConsole w;
     os_StdHandle_valid := os_StdHandle_valid w;
     os_GetConsoleMode := os_GetConsoleMode w;
     FormatLog_calls := FormatLog_calls w; output := output w ++ [o] |}.

(** ** The Log member functions and the global logging functions *)

Section Logger.
Context {hdr : LogHeader} {build : Build} {libc : Libc}.

(** Log::DefaultLogOutput. On Win32 the static [hasConsole] is initialised
    by the first call and read by every later one. *)
Definition DefaultLogOutput (messageType : Z) (formattedText : list ascii)
    (w : World) : World :=
  if OVR_OS_WIN32 then
    let w1 :=
      match hasConsole w with
      | Some _ => w
      | None => set_hasConsole (Some (os_StdHandle_valid w && os_GetConsoleMode w)) w
      end in
    let hasConsole_now := default false (hasConsole w1) in
    if negb hasConsole_now || IsDebugMessage messageType
    then emit (OutputDebugStringA formattedText) w1
    else emit (fputs_stdout formattedText) w1
  else if OVR_OS_ANDROID then
    let logPriority :=
      if (messageType =? Log_DebugText) || (messageType =? Log_Debug)
      then ANDROID_LOG_DEBUG
      else if (messageType =? Log_Assert) || (messageType =? Log_Error)
      then ANDROID_LOG_ERROR
      else ANDROID_LOG_INFO in
    emit (android_log_write logPriority (cstr "OVR") formattedText) w
  else
    emit (fputs_stdout formattedText) w.

(** Log::LogMessageVarg, called on the object at address [this]. *)
Definition LogMessageVarg (this : Z) (messageType : Z) (fmt : list ascii)
    (argList : va_list) (w : World) : option World :=
  self ← objects w !! this;
  if Z.land messageType (LoggingMask self) =? 0 then Some w
  else if negb OVR_BUILD_DEBUG && IsDebugMessage messageType then Some w
  else
    let buffer := auto_array MaxLogBufferMessageSize in
    buffer' ← FormatLog buffer MaxLogBufferMessageSize messageType fmt argList;
    Some (DefaultLogOutput messageType (cstring buffer') (enter_FormatLog w)).

(** Log::LogMessage: the variadic front of LogMessageVarg. *)
Definition LogMessage (this : Z) (messageType : Z) (pfmt : list ascii)
    (argList : va_list) (w : World) : option World :=
  LogMessageVarg this messageType pfmt argList w.

(** Modelled from the spec: the constructor is defined in OVR_Log.h, which
    is not among the sources. A sink owns its mask and construction is no
    transition of the global pointer, so the constructor only initialises
    [LoggingMask]. *)
Definition Log_constructor (this : Z) (logMask : Z) (w : World) : World :=
  set_objects (<[this := {| LoggingMask := logMask |}]> (objects w)) w.

(** Log::~Log, followed by the end of the object's lifetime. *)
Definition Log_destructor (this : Z) (w : World) : World :=
  let w1 := if this =? OVR_GlobalLog w then set_GlobalLog 0 w else w in
  set_objects (delete this (objects w1)) w1.

Definition SetGlobalLog (log : Z) (w : World) : World := set_GlobalLog log w.

Definition GetGlobalLog (w : World) : World * Z := (w, OVR_GlobalLog w).

(** Log::GetDefaultLog: the static is constructed when control first
    passes its declaration. *)
Definition GetDefaultLog (w : World) : World * Z :=
  let w1 :=
    if defaultLog_constructed w then w
    else set_defaultLog_constructed true
           (Log_constructor defaultLog_address DefaultLoggingMask w) in
  (w1, defaultLog_address).

Definition LogFn (msgType : Z) (fmt : list ascii) (args : va_list)
    (w : World) : option World :=
  if negb (OVR_GlobalLog w =? 0) then
    LogMessageVarg (OVR_GlobalLog w) msgType fmt args w
  else Some w.

Definition LogText (fmt : list ascii) (args : va_list) := LogFn Log_Text fmt args.
Definition LogError (fmt : list ascii) (args : va_list) := LogFn Log_Error fmt args.
Definition LogDebug (fmt : list ascii) (args : va_list) := LogFn Log_Debug fmt args.
Definition LogDebugText (fmt : list ascii) (args : va_list) := LogFn Log_DebugText fmt args.
Definition LogAssert (fmt : list ascii) (args : va_list) := LogFn Log_Assert fmt args.

(** The filter in the specification's words: the category of the type is
    enabled in the mask, and the message is not debug-only or the build
    permits debug output. *)
Definition category_enabled (messageType mask : Z) : bool :=
  negb (Z.land messageType mask =? 0).

Definition debug_permitted (messageType : Z) : bool :=
  negb (IsDebugMessage messageType) || OVR_BUILD_DEBUG.

(** Every entry point of the translation unit, as one call. *)
Inductive Call : Type :=
| Call_Log_constructor (this logMask : Z)
| Call_Log_destructor (this : Z)
| Call_LogMessageVarg (this messageType : Z) (fmt : list ascii) (argList : va_list)
| Call_LogMessage (this messageType : Z) (fmt : list ascii) (argList : va_list)
| Call_FormatLog (buffer : list ascii) (bufferSize messageType : Z)
    (fmt : list ascii) (argList : va_list)
| Call_DefaultLogOutput (messageType : Z) (formattedText : list ascii)
| Call_SetGlobalLog (log : Z)
| Call_GetGlobalLog
| Call_GetDefaultLog
| Call_LogText (fmt : list ascii) (args : va_list)
| Call_LogError (fmt : list ascii) (args : va_list)
| Call_LogDebug (fmt : list ascii) (args : va_list)
| Call_LogDebugText (fmt : list ascii) (args : va_list)
| Call_LogAssert (fmt : list ascii) (args : va_list).

(** The process state after a call; [None] when the call faults. *)
Definition run (c : Call) (w : World) : option World :=
  match c with
  | Call_Log_constructor this logMask => Some (Log_constructor this logMask w)
  | Call_Log_destructor this => Some (Log_destructor this w)
  | Call_LogMessageVarg this ty fmt args => LogMessageVarg this ty fmt args w
  | Call_LogMessage this ty fmt args => LogMessage this ty fmt args w
  | Call_FormatLog buffer bufferSize ty fmt args =>
      _ ← FormatLog buffer bufferSize ty fmt args; Some (enter_FormatLog w)
  | Call_DefaultLogOutput ty text => Some (DefaultLogOutput ty text w)
  | Call_SetGlobalLog log => Some (SetGlobalLog log w)
  | Call_GetGlobalLog => Some (GetGlobalLog w).1
  | Call_GetDefaultLog => Some (GetDefaultLog w).1
  | Call_LogText fmt args => LogText fmt args w
  | Call_LogError fmt args => LogError fmt args w
  | Call_LogDebug fmt args => LogDebug fmt args w
  | Call_LogDebugText fmt args => LogDebugText fmt args w
  | Call_LogAssert fmt args => LogAssert fmt args w
  end.



End Logger.


(** ** A rendering for the C library's conversions

    Enough of [printf] to run examples: [%d], [%i], [%s], [%c] and [%%].
    A conversion without a matching argument ends the output. *)

Definition decimal (z : Z) : list ascii :=
  list_ascii_of_string (NilZero.string_of_int (Z.to_int z)).

Fixpoint printf_render (fmt : list ascii) (args : va_list) : list ascii :=
  match fmt with
  | [] => []
  | c :: rest =>
      if Ascii.eqb c "%" then
        match rest with
        | [] => []
        | d :: rest' =>
            if Ascii.eqb d "%" then "%"%char :: printf_render rest' args
            else if Ascii.eqb d "d" || Ascii.eqb d "i" then
              match args with
              | ArgInt z :: args' => decimal z ++ printf_render rest' args'
              | _ => []
              end
            else if Ascii.eqb d "s" then
              match args with
              | ArgStr t :: args' => cstring t ++ printf_render rest' args'
              | _ => []
              end
            else if Ascii.eqb d "c" then
              match args with
              | ArgChar x :: args' => x :: printf_render rest' args'
              | _ => []
              end
            else []
        end
      else c :: printf_render rest args
  end.

(** ** OVR_Atomic.cpp: the Win32 Lock *)

Module Atomic.

(** Calls into the operating system, as the constructor and destructor
    make them. [cs] is the address of the object's CRITICAL_SECTION. *)
Inductive OsCall : Type :=
| InitializeCriticalSectionEx (cs spinCount flags : Z)
| LoadLibrary (name : string)
| GetProcAddress (hmodule : Z) (name : string)
| call_pInitFn (fn cs spinCount : Z)
| InitializeCriticalSection (cs : Z)
| DeleteCriticalSection (cs : Z).

Class Win32Build := {
  (* defined(NTDDI_WIN8) && (NTDDI_VERSION >= NTDDI_WIN8) *)
  NTDDI_WIN8_API : bool;
  (* OVR_DEBUG_SELECT(debug, release), a macro of OVR_Types.h *)
  OVR_DEBUG_SELECT : Z → Z → Z;
  CRITICAL_SECTION_NO_DEBUG_INFO : Z
}.

(** What the operating system answers, given every call made so far. *)
Class Kernel32 := {
  os_LoadLibrary : list OsCall → string → Z;
  os_GetProcAddress : list OsCall → Z → string → Z
}.

Record Process : Type := {
  (* static bool initTried *)
  initTried : bool;
  (* static Function_InitializeCriticalSectionAndSpinCount pInitFn *)
  pInitFn : Z;
  (* the calls made so far, oldest first *)
  calls : list OsCall
}.

Definition start : Process :=
  {| initTried := false; pInitFn := 0; calls := [] |}.

Definition os_call (c : OsCall) (w : Process) : Process :=
  {| initTried := initTried w; pInitFn := pInitFn w; calls := calls w ++ [c] |}.

(** The two string literals of the probe. *)
Definition kernel32_dll : string := "kernel32.dll".
Definition spin_initializer : string := "InitializeCriticalSectionAndSpinCount".

Section Lock.
Context {win : Win32Build} {os : Kernel32}.

(** The [if (!initTried)] block. *)
Definition probe (w : Process) : Process :=
  let hmodule := os_LoadLibrary (calls w) kernel32_dll in
  let w1 := os_call (LoadLibrary kernel32_dll) w in
  let fn := os_GetProcAddress (calls w1) hmodule spin_initializer in
  let w2 := os_call (GetProcAddress hmodule spin_initializer) w1 in
  {| initTried := true; pInitFn := fn; calls := calls w2 |}.

(** Lock::Lock(unsigned spinCount) *)
Definition Lock_constructor (cs : Z) (spinCount : Z) (w : Process) : Process :=
  if NTDDI_WIN8_API then
    os_call (InitializeCriticalSectionEx cs spinCount
               (OVR_DEBUG_SELECT 0 CRITICAL_SECTION_NO_DEBUG_INFO)) w
  else
    let w1 := if negb (initTried w) then probe w else w in
    if negb (pInitFn w1 =? 0) then os_call (call_pInitFn (pInitFn w1) cs spinCount) w1
    else os_call (InitializeCriticalSection cs) w1.

(** Lock::~Lock() *)
Definition Lock_destructor (cs : Z) (w : Process) : Process :=
  os_call (DeleteCriticalSection cs) w.

(** Constructing one Lock after another. *)
Fixpoint construct_all (locks : list (Z * Z)) (w : Process) : Process :=
  match locks with
  | [] => w
  | (cs, spinCount) :: rest => construct_all rest (Lock_constructor cs spinCount w)
  end.

End Lock.

(** The initializer a constructor uses outside the Windows 8 API, given
    the address the probe resolved ([0] when it resolved nothing). *)
Definition initializer_for (fn : Z) (lock : Z * Z) : OsCall :=
  if fn =? 0 then InitializeCriticalSection lock.1
  else call_pInitFn fn lock.1 lock.2.

Definition is_GetProcAddress (c : OsCall) : bool :=
  match c with
  | GetProcAddress _ _ => true
  | _ => false
  end.

Definition is_LoadLibrary (c : OsCall) : bool :=
  match c with
  | LoadLibrary _ => true
  | _ => false
  end.

(** Two builds and two systems for running the constructor: a system
    whose core library lacks the spin-count initializer, and one that
    resolves it to the address [0x7700]. *)
Definition legacy_build : Win32Build := {|
  NTDDI_WIN8_API := false;
  OVR_DEBUG_SELECT := λ debug release, release;
  CRITICAL_SECTION_NO_DEBUG_INFO := 0x01000000
|}.

Definition win8_build : Win32Build := {|
  NTDDI_WIN8_API := true;
  OVR_DEBUG_SELECT := λ debug release, release;
  CRITICAL_SECTION_NO_DEBUG_INFO := 0x01000000
|}.

Definition kernel32_without_spin : Kernel32 := {|
  os_LoadLibrary := λ _ _, 0x77000000;
  os_GetProcAddress := λ _ _ _, 0
|}.

Definition kernel32_with_spin : Kernel32 := {|
  os_LoadLibrary := λ _ _, 0x77000000;
  os_GetProcAddress := λ _ _ _, 0x7700
|}.

End Atomic.

(** ** Concrete configurations for running the code

    Enumerator values in the layout "category bit | level", with a regular
    category (bit 8) and a debug category (bit 9). *)

Definition LogMask_Regular : Z := 0x100.
Definition LogMask_Debug : Z := 0x200.

Definition example_header : LogHeader := {|
  Log_Text := Z.lor LogMask_Regular 0;
  Log_Error := Z.lor LogMask_Regular 1;
  Log_DebugText := Z.lor LogMask_Debug 0;
  Log_Debug := Z.lor LogMask_Debug 1;
  Log_Assert := Z.lor LogMask_Debug 2;
  IsDebugMessage := λ messageType, negb (Z.land messageType LogMask_Debug =? 0);
  MaxLogBufferMessageSize := 4096;
  DefaultLoggingMask := LogMask_Debug
|}.

Definition example_libc : Libc := {|
  vformat := printf_render;
  auto_array := λ n, replicate (Z.to_nat n) "?"%char
|}.

Definition release_build (win32 android : bool) : Build := {|
  OVR_BUILD_DEBUG := false;
  OVR_OS_WIN32 := win32;
  OVR_OS_ANDROID := android;
  defaultLog_address := 0x4000
|}.

Definition debug_build (win32 android : bool) : Build := {|
  OVR_BUILD_DEBUG := true;
  OVR_OS_WIN32 := win32;
  OVR_OS_ANDROID := android;
  defaultLog_address := 0x4000
|}.

Definition all_categories : Log :=
  {| LoggingMask := Z.lor LogMask_Regular LogMask_Debug |}.

(** A process with one sink at address [0x1000], installed as the global
    sink, with every category enabled. *)
Definition example_world : World := {|
  OVR_GlobalLog := 0x1000;
  objects := {[ 0x1000 := all_categories ]};
  defaultLog_constructed := false;
  hasConsole := None;
  os_StdHandle_valid := true;
  os_GetConsoleMode := true;
  FormatLog_calls := 0;
  output := []
|}.

(** ** Sequences of calls *)

Section Runs.
Context {hdr : LogHeader} {build : Build} {libc : Libc}.

(** One call after another; a fault ends the run. *)
Fixpoint run_all (cs : list Call) (w : World) : option World :=
  match cs with
  | [] => Some w
  | c :: cs' => w' ← run c w; run_all cs' w'
  end.

End Runs.

(** The global pointer is null or holds the address of a live sink. *)
Definition global_valid (w : World) : Prop :=
  OVR_GlobalLog w = 0 ∨ is_Some (objects w !! OVR_GlobalLog w).

(** A call that installs a pointer installs null or a live sink. *)
Definition installs_valid (c : Call) (w : World) : Prop :=
  match c with
  | Call_SetGlobalLog log => log = 0 ∨ is_Some (objects w !! log)
  | _ => True
  end.

(** The calls that create or end a sink. *)
Definition changes_sinks (c : Call) : bool :=
  match c with
  | Call_Log_constructor _ _ | Call_Log_destructor _ | Call_GetDefaultLog => true
  | _ => false
  end.

(** The calls that enter FormatLog or DefaultLogOutput on their own, not
    through LogMessageVarg. *)
Definition calls_step_directly (c : Call) : bool :=
  match c with
  | Call_FormatLog _ _ _ _ _ | Call_DefaultLogOutput _ _ => true
  | _ => false
  end.

Definition is_OutputDebugStringA (o : Output) : bool :=
  match o with
  | OutputDebugStringA _ => true
  | _ => false
  end.

(** Constructions and destructions of Lock objects, in program order. *)
Inductive LockOp : Type :=
| Construct (cs spinCount : Z)
| Destroy (cs : Z).

Definition run_lock_op {win : Atomic.Win32Build} {os : Atomic.Kernel32}
    (op : LockOp) (w : Atomic.Process) : Atomic.Process :=
  match op with
  | Construct cs spinCount => Atomic.Lock_constructor cs spinCount w
  | Destroy cs => Atomic.Lock_destructor cs w
  end.

Definition run_lock_ops {win : Atomic.Win32Build} {os : Atomic.Kernel32}
    (ops : list LockOp) (w : Atomic.Process) : Atomic.Process :=
  fold_left (λ w op, run_lock_op op w) ops w.

Definition is_Construct (op : LockOp) : bool :=
  match op with
  | Construct _ _ => true
  | Destroy _ => false
  end.

Definition is_initialization (c : Atomic.OsCall) : bool :=
  match c with
  | Atomic.InitializeCriticalSectionEx _ _ _
  | Atomic.call_pInitFn _ _ _
  | Atomic.InitializeCriticalSection _ => true
  | _ => false
  end.

Definition is_DeleteCriticalSection (c : Atomic.OsCall) : bool :=
  match c with
  | Atomic.DeleteCriticalSection _ => true
  | _ => false
  end.

(** The one call an operation makes once the probe is behind: [fn] is the
    cached address. *)
Definition os_call_of (fn : Z) (op : LockOp) : Atomic.OsCall :=
  match op with
  | Construct cs spinCount => Atomic.initializer_for fn (cs, spinCount)
  | Destroy cs => Atomic.DeleteCriticalSection cs
  end.

(** Two processes whose console changed after the first message: one
    that found no console and has one now, and one that found a console and
    has lost it. *)
Definition console_appeared : World := set_hasConsole (Some false) example_world.

Definition console_gone : World := {|
  OVR_GlobalLog := 0x1000;
  objects := {[ 0x1000 := all_categories ]};
  defaultLog_constructed := false;
  hasConsole := Some true;
  os_StdHandle_valid := false;
  os_GetConsoleMode := false;
  FormatLog_calls := 0;
  output := []
|}.

(** A run of calls and a process behind its probe, for running the
    code. *)
Definition example_calls : list Call :=
  [Call_LogError (cstr "x=%d") [ArgInt 5]; Call_SetGlobalLog 0;
   Call_LogText (cstr "dropped") []; Call_GetGlobalLog;
   Call_SetGlobalLog 0x1000; Call_LogText (cstr "hi") []].

Definition probed_process : Atomic.Process :=
  {| Atomic.initTried := true; Atomic.pInitFn := 0x7700; Atomic.calls := [] |}.

(** * Properties *)

(** Decide the comparisons of a goal from the equalities and
    disequalities at hand. *)
Ltac eqb_cases :=
  repeat first
    [ rewrite Z.eqb_refl
    | match goal with
      | |- context [?a =? ?b] =>
          rewrite (proj2 (Z.eqb_neq a b)) by congruence
      end ];
  try done.

(** ** Memory lemmas *)

Section MemLemmas.
Implicit Types (m l a b s bs : list ascii) (c : ascii) (p n room : Z).

Lemma truncate_take room s : truncate room s = take (Z.to_nat room) s.
Proof.
  revert room; induction s as [|c s IH]; intros room; simpl.
  - by rewrite take_nil.
  - destruct (Z.leb_spec room 0).
    + by replace (Z.to_nat room) with 0%nat by lia.
    + replace (Z.to_nat room) with (S (Z.to_nat (room - 1))) by lia.
      simpl. by rewrite IH.
Qed.

Lemma truncate_length room s :
  0 ≤ room → Z.of_nat (length (truncate room s)) = Z.min room (Z.of_nat (length s)).
Proof. intros. rewrite truncate_take, length_take. lia. Qed.

Lemma truncate_app room a b :
  truncate room (a ++ b) =
  truncate room a ++ truncate (room - Z.of_nat (length a)) b.
Proof.
  rewrite !truncate_take, take_app. do 2 f_equal. lia.
Qed.

Lemma truncate_all room s : Z.of_nat (length s) ≤ room → truncate room s = s.
Proof. intros. rewrite truncate_take. apply take_ge. lia. Qed.

Lemma truncate_truncate r1 r2 s :
  truncate r1 (truncate r2 s) = truncate (Z.min r1 r2) s.
Proof.
  rewrite !truncate_take, take_take. f_equal. lia.
Qed.

Lemma eqb_NUL_false c : c ≠ NUL → Ascii.eqb c NUL = false.
Proof. intros; by apply Ascii.eqb_neq. Qed.

Lemma cstring_free l : NUL ∉ cstring l.
Proof.
  induction l as [|c l IH]; simpl; [apply not_elem_of_nil|].
  destruct (Ascii.eqb_spec c NUL); [apply not_elem_of_nil|].
  rewrite not_elem_of_cons. split; [congruence | done].
Qed.

Lemma cstring_app_free a b : NUL ∉ a → cstring (a ++ b) = a ++ cstring b.
Proof.
  induction a as [|c a IH]; simpl; [done|].
  rewrite not_elem_of_cons. intros [Hc Ha].
  rewrite eqb_NUL_false by congruence. by rewrite IH.
Qed.

Lemma cstring_id a : NUL ∉ a → cstring a = a.
Proof.
  intros Ha. rewrite <- (app_nil_r a) at 1.
  by rewrite cstring_app_free, app_nil_r.
Qed.

Lemma cstring_nul_tail b : cstring (NUL :: b) = [].
Proof. done. Qed.

Lemma cstring_length l : (length (cstring l) ≤ length l)%nat.
Proof.
  induction l as [|c l IH]; simpl; [lia|].
  destruct (Ascii.eqb c NUL); simpl; lia.
Qed.

(** A sequence holding a terminator splits at its first one. *)
Lemma cstring_split l :
  NUL ∈ l → ∃ rest, l = cstring l ++ NUL :: rest.
Proof.
  induction l as [|c l IH]; [by intros ?%elem_of_nil|].
  simpl. destruct (Ascii.eqb_spec c NUL) as [->|Hc].
  - intros _. by exists l.
  - rewrite elem_of_cons. intros [?|Hl]; [congruence|].
    destruct (IH Hl) as [rest Hrest]. exists rest. simpl. by rewrite <- Hrest.
Qed.

Lemma cstring_truncate room l : cstring (truncate room l) = truncate room (cstring l).
Proof.
  revert room; induction l as [|c l IH]; intros room; simpl; [done|].
  destruct (Z.leb_spec room 0) as [Hr|Hr]; simpl.
  - destruct (Ascii.eqb c NUL); simpl; [done|].
    by destruct (Z.leb_spec room 0); [|lia].
  - destruct (Ascii.eqb c NUL); simpl; [done|].
    destruct (Z.leb_spec room 0); [lia|]. by rewrite IH.
Qed.

Lemma store_spec pre c0 post c :
  store (pre ++ c0 :: post) (Z.of_nat (length pre)) c = Some (pre ++ c :: post).
Proof.
  unfold store, in_bounds. rewrite length_app. simpl.
  destruct (Z.leb_spec 0 (Z.of_nat (length pre))); [|lia].
  destruct (Z.ltb_spec (Z.of_nat (length pre))
              (Z.of_nat (length pre + S (length post)))); [|lia].
  simpl. rewrite Nat2Z.id. f_equal.
  rewrite insert_app_r_alt by lia. by rewrite Nat.sub_diag.
Qed.

Lemma store_bytes_spec bs : ∀ pre old post,
  length old = length bs →
  store_bytes (pre ++ old ++ post) (Z.of_nat (length pre)) bs
  = Some (pre ++ bs ++ post).
Proof.
  induction bs as [|c bs IH]; intros pre old post Hlen.
  - destruct old; [done | discriminate].
  - destruct old as [|c0 old]; [discriminate|]. simpl in *.
    rewrite store_spec. simpl.
    replace (pre ++ c :: old ++ post) with ((pre ++ [c]) ++ old ++ post)
      by (by rewrite <- app_assoc).
    replace (Z.of_nat (length pre) + 1) with (Z.of_nat (length (pre ++ [c])))
      by (rewrite length_app; simpl; lia).
    rewrite IH by lia. by rewrite <- app_assoc.
Qed.

(** Writing [bs] at offset [p] of an allocation that has room for it. *)
Lemma store_bytes_at m p bs :
  0 ≤ p → p + Z.of_nat (length bs) ≤ Z.of_nat (length m) →
  store_bytes m p bs
  = Some (take (Z.to_nat p) m ++ bs ++ drop (Z.to_nat p + length bs) m).
Proof.
  intros Hp Hfit.
  pose proof (store_bytes_spec bs (take (Z.to_nat p) m)
                (take (length bs) (drop (Z.to_nat p) m))
                (drop (Z.to_nat p + length bs) m)) as Hs.
  rewrite <- drop_drop, !take_drop in Hs.
  replace (Z.of_nat (length (take (Z.to_nat p) m))) with p in Hs
    by (rewrite length_take; lia).
  rewrite drop_drop in Hs. apply Hs.
  rewrite length_take, length_drop. lia.
Qed.

Lemma store_bytes_fault m p bs :
  bs ≠ [] → Z.of_nat (length m) ≤ p → store_bytes m p bs = None.
Proof.
  destruct bs as [|c bs]; [done|]. intros _ Hp. simpl.
  unfold store, in_bounds.
  destruct (Z.ltb_spec p (Z.of_nat (length m))); [lia|].
  by rewrite andb_false_r.
Qed.

Lemma load_spec pre c post :
  load (pre ++ c :: post) (Z.of_nat (length pre)) = Some c.
Proof.
  unfold load, in_bounds. rewrite length_app. simpl.
  destruct (Z.leb_spec 0 (Z.of_nat (length pre))); [|lia].
  destruct (Z.ltb_spec (Z.of_nat (length pre))
              (Z.of_nat (length pre + S (length post)))); [|lia].
  simpl. rewrite Nat2Z.id. by rewrite list_lookup_middle.
Qed.

Lemma load_middle l pre c post :
  l = pre ++ c :: post → load l (0 + Z.of_nat (length pre)) = Some c.
Proof. intros ->. rewrite Z.add_0_l. apply load_spec. Qed.

(** The scan stops at the first terminator, provided the limit (if any)
    lies beyond it. *)
Lemma scan_nul_spec a rest limit :
  NUL ∉ a →
  (∀ k, limit = Some k → Z.of_nat (length a) < k) →
  ∀ fuel done todo,
    a = done ++ todo → (length todo < fuel)%nat →
    scan_nul fuel (a ++ NUL :: rest) 0 (Z.of_nat (length done)) limit
    = Some (Z.of_nat (length a)).
Proof.
  intros Ha Hlim fuel. induction fuel as [|fuel IH]; intros done todo Heq Hfuel;
    [lia|].
  cbn [scan_nul].
  assert (Hlen : length a = (length done + length todo)%nat)
    by (by rewrite Heq, length_app).
  replace (match limit with Some k => k <=? Z.of_nat (length done) | None => false end)
    with false.
  2:{ destruct limit as [k|]; [|done]. specialize (Hlim k eq_refl).
      symmetry. apply Z.leb_gt. lia. }
  destruct todo as [|c todo].
  - rewrite (load_middle _ done NUL rest)
      by (rewrite Heq, app_nil_r; done).
    simpl. f_equal. simpl in Hlen. lia.
  - rewrite (load_middle _ done c (todo ++ NUL :: rest))
      by (rewrite Heq, <- app_assoc; done).
    assert (c ≠ NUL) by (intros ->; apply Ha; rewrite Heq; set_solver).
    cbn [mbind option_bind]. rewrite eqb_NUL_false by done.
    replace (Z.of_nat (length done) + 1) with (Z.of_nat (length (done ++ [c])))
      by (rewrite length_app; simpl; lia).
    apply (IH (done ++ [c]) todo).
    + by rewrite <- app_assoc.
    + simpl in Hfuel. lia.
Qed.

Lemma OVR_strlen_spec m :
  NUL ∈ m → OVR_strlen m 0 = Some (Z.of_nat (length (cstring m))).
Proof.
  intros [rest Hm]%cstring_split. unfold OVR_strlen.
  rewrite Hm at 2.
  apply (scan_nul_spec (cstring m) rest None (cstring_free m)
           ltac:(done) (S (length m)) [] (cstring m) eq_refl).
  pose proof (cstring_length m). lia.
Qed.

End MemLemmas.

(** ** The helpers on a buffer that holds a C string *)

Section HelperLemmas.
Implicit Types (m l a b s bs src : list ascii) (c : ascii) (p n room : Z).

Lemma truncate_nonpos room s : room ≤ 0 → truncate room s = [].
Proof. intros. rewrite truncate_take. by replace (Z.to_nat room) with 0%nat by lia. Qed.

Lemma truncate_fill n a b :
  0 ≤ n →
  truncate n a ++ truncate (n - Z.of_nat (length (truncate n a))) b
  = truncate n (a ++ b).
Proof.
  intros Hn. rewrite truncate_app. f_equal.
  rewrite truncate_length by done.
  destruct (Z.le_gt_cases (Z.of_nat (length a)) n).
  - f_equal. lia.
  - rewrite !truncate_nonpos; [done | lia | lia].
Qed.

Lemma cstring_app_nul bs rest : cstring (bs ++ NUL :: rest) = cstring bs.
Proof.
  induction bs as [|c bs IH]; simpl; [done|].
  destruct (Ascii.eqb c NUL); [done | by rewrite IH].
Qed.

Lemma no_NUL l : forallb (λ c, negb (Ascii.eqb c NUL)) l = true → NUL ∉ l.
Proof.
  induction l as [|c l IH]; simpl; [intros _; apply not_elem_of_nil|].
  intros [Hc Hl]%andb_prop. rewrite not_elem_of_cons. split; [|by apply IH].
  intros <-. by rewrite Ascii.eqb_refl in Hc.
Qed.

Lemma NUL_in_middle a b : NUL ∈ a ++ NUL :: b.
Proof. set_solver. Qed.

(** Storing [bs] and a terminator behind [p] characters that hold no
    terminator: the allocation then denotes those characters followed by
    the C string of [bs]. *)
Lemma put_cstring m p bs :
  0 ≤ p → NUL ∉ take (Z.to_nat p) m →
  p + Z.of_nat (length bs) + 1 ≤ Z.of_nat (length m) →
  ∃ m', store_bytes m p (bs ++ [NUL]) = Some m'
        ∧ length m' = length m
        ∧ NUL ∈ m'
        ∧ cstring m' = take (Z.to_nat p) m ++ cstring bs.
Proof.
  intros Hp Hfree Hfit. eexists. split; [|split; [|split]].
  - apply store_bytes_at; [done|]. rewrite length_app. simpl. lia.
  - repeat (rewrite ?length_app, ?length_take, ?length_drop; simpl). lia.
  - rewrite <- (app_assoc bs). rewrite (app_assoc _ bs). apply NUL_in_middle.
  - rewrite cstring_app_free by done. f_equal.
    rewrite <- (app_assoc bs). apply cstring_app_nul.
Qed.

Lemma take_cstring m : NUL ∈ m → take (length (cstring m)) m = cstring m.
Proof.
  intros [rest Hm]%cstring_split. rewrite Hm at 2.
  by rewrite take_app_length.
Qed.

Lemma cstring_lt m : NUL ∈ m → (length (cstring m) < length m)%nat.
Proof.
  intros [rest Hm]%cstring_split. rewrite Hm at 2.
  rewrite length_app. simpl. lia.
Qed.

Lemma OVR_strcpy_spec m destsize src :
  1 ≤ destsize ≤ Z.of_nat (length m) →
  ∃ m', OVR_strcpy m 0 destsize src = Some m'
        ∧ length m' = length m ∧ NUL ∈ m'
        ∧ cstring m' = truncate (destsize - 1) (cstring src).
Proof.
  intros Hsz. unfold OVR_strcpy.
  destruct (Z.leb_spec destsize 0); [lia|].
  destruct (put_cstring m 0 (truncate (destsize - 1) src)) as (m' & ? & ? & ? & Hc).
  - done.
  - simpl. apply not_elem_of_nil.
  - rewrite truncate_length by lia. lia.
  - exists m'. repeat split; try done.
    by rewrite Hc, cstring_truncate.
Qed.

Lemma OVR_vsprintf_spec m destsize rendered :
  NUL ∈ m →
  destsize = Z.of_nat (length m) - Z.of_nat (length (cstring m)) →
  ∃ m', OVR_vsprintf m (0 + Z.of_nat (length (cstring m))) destsize rendered
        = Some m'
        ∧ length m' = length m ∧ NUL ∈ m'
        ∧ cstring m' = cstring m ++ truncate (destsize - 1) (cstring rendered).
Proof.
  intros Hnul ->. pose proof (cstring_lt m Hnul). unfold OVR_vsprintf.
  set (sz := Z.of_nat (length m) - Z.of_nat (length (cstring m))).
  destruct (Z.leb_spec sz 0); [lia|].
  destruct (put_cstring m (0 + Z.of_nat (length (cstring m)))
              (truncate (sz - 1) rendered)) as (m' & ? & ? & ? & Hc).
  - lia.
  - rewrite Z.add_0_l, Nat2Z.id, take_cstring by done. apply cstring_free.
  - rewrite truncate_length by lia. lia.
  - exists m'. repeat split; try done.
    by rewrite Hc, Z.add_0_l, Nat2Z.id, take_cstring, cstring_truncate.
Qed.

Lemma scan_nul_bounded m destsize :
  NUL ∈ m → destsize = Z.of_nat (length m) →
  scan_nul (S (length m)) m 0 0 (Some destsize)
  = Some (Z.of_nat (length (cstring m))).
Proof.
  intros Hnul ->. pose proof (cstring_lt m Hnul) as Hlt.
  destruct (cstring_split m Hnul) as [rest Hm]. rewrite Hm at 2.
  apply (scan_nul_spec (cstring m) rest _ (cstring_free m)) with (done := [])
    (todo := cstring m); [|done|lia].
  intros k [= <-]. lia.
Qed.

Lemma OVR_strcat_spec m destsize src :
  NUL ∈ m → destsize = Z.of_nat (length m) →
  ∃ m', OVR_strcat m 0 destsize src = Some m'
        ∧ length m' = length m ∧ NUL ∈ m'
        ∧ cstring m' =
          cstring m
          ++ truncate (destsize - 1 - Z.of_nat (length (cstring m))) (cstring src).
Proof.
  intros Hnul Hsz. pose proof (cstring_lt m Hnul). unfold OVR_strcat.
  rewrite scan_nul_bounded by done. cbn [mbind option_bind].
  destruct (Z.leb_spec destsize (Z.of_nat (length (cstring m)))); [lia|].
  set (k := destsize - Z.of_nat (length (cstring m)) - 1).
  destruct (put_cstring m (0 + Z.of_nat (length (cstring m)))
              (truncate k src)) as (m' & ? & ? & ? & Hc).
  - lia.
  - rewrite Z.add_0_l, Nat2Z.id, take_cstring by done. apply cstring_free.
  - rewrite truncate_length by lia. lia.
  - exists m'. repeat split; try done.
    rewrite Hc, Z.add_0_l, Nat2Z.id, take_cstring, cstring_truncate by done.
    do 2 f_equal. lia.
Qed.

End HelperLemmas.

(** ** Memory beyond the accesses of a call is left alone *)

Section Frame.
Implicit Types (m beyond bs src : list ascii) (c : ascii) (p n : Z).

Lemma in_bounds_frame m beyond p :
  in_bounds m p = true → in_bounds (m ++ beyond) p = true.
Proof.
  unfold in_bounds. rewrite length_app.
  intros [? ?]%andb_prop. apply andb_true_intro. split; [done|].
  apply Z.ltb_lt. apply Z.ltb_lt in H0. lia.
Qed.

Lemma load_frame m beyond p c :
  load m p = Some c → load (m ++ beyond) p = Some c.
Proof.
  unfold load. destruct (in_bounds m p) eqn:Hb; [|done].
  rewrite (in_bounds_frame _ beyond _ Hb). intros Hl.
  by apply lookup_app_l_Some.
Qed.

Lemma store_frame m beyond p c m' :
  store m p c = Some m' → store (m ++ beyond) p c = Some (m' ++ beyond).
Proof.
  unfold store. destruct (in_bounds m p) eqn:Hb; [|done].
  rewrite (in_bounds_frame _ beyond _ Hb). intros [= <-]. f_equal.
  apply insert_app_l. unfold in_bounds in Hb.
  apply andb_prop in Hb as [? ?%Z.ltb_lt]. lia.
Qed.

Lemma store_bytes_frame bs : ∀ m beyond p m',
  store_bytes m p bs = Some m' →
  store_bytes (m ++ beyond) p bs = Some (m' ++ beyond).
Proof.
  induction bs as [|c bs IH]; intros m beyond p m'; simpl.
  - by intros [= <-].
  - destruct (store m p c) as [m1|] eqn:Hs; [|done]. simpl.
    rewrite (store_frame _ beyond _ _ _ Hs). simpl. apply IH.
Qed.

Lemma scan_nul_frame beyond limit fuel : ∀ m p n k fuel',
  (fuel ≤ fuel')%nat →
  scan_nul fuel m p n limit = Some k →
  scan_nul fuel' (m ++ beyond) p n limit = Some k.
Proof.
  induction fuel as [|fuel IH]; intros m p n k fuel' Hle; [done|].
  destruct fuel' as [|fuel']; [lia|]. cbn [scan_nul].
  destruct (match limit with Some k0 => k0 <=? n | None => false end); [done|].
  destruct (load m (p + n)) as [c|] eqn:Hl; [|done].
  rewrite (load_frame _ beyond _ _ Hl). cbn [mbind option_bind].
  destruct (Ascii.eqb c NUL); [done|]. apply IH. lia.
Qed.

Lemma OVR_strlen_frame m beyond p k :
  OVR_strlen m p = Some k → OVR_strlen (m ++ beyond) p = Some k.
Proof.
  unfold OVR_strlen. apply scan_nul_frame. rewrite length_app. lia.
Qed.

Lemma OVR_strcpy_frame m beyond dest destsize src m' :
  OVR_strcpy m dest destsize src = Some m' →
  OVR_strcpy (m ++ beyond) dest destsize src = Some (m' ++ beyond).
Proof.
  unfold OVR_strcpy. destruct (destsize <=? 0); [by intros [= <-]|].
  apply store_bytes_frame.
Qed.

Lemma OVR_vsprintf_frame m beyond dest destsize rendered m' :
  OVR_vsprintf m dest destsize rendered = Some m' →
  OVR_vsprintf (m ++ beyond) dest destsize rendered = Some (m' ++ beyond).
Proof.
  unfold OVR_vsprintf. destruct (destsize <=? 0); [by intros [= <-]|].
  apply store_bytes_frame.
Qed.

Lemma OVR_strcat_frame m beyond dest destsize src m' :
  OVR_strcat m dest destsize src = Some m' →
  OVR_strcat (m ++ beyond) dest destsize src = Some (m' ++ beyond).
Proof.
  unfold OVR_strcat.
  destruct (scan_nul (S (length m)) m dest 0 (Some destsize)) as [dlen|] eqn:Hs;
    [|done].
  assert (Hle : (S (length m) ≤ S (length (m ++ beyond)))%nat)
    by (rewrite length_app; lia).
  rewrite (scan_nul_frame beyond _ _ _ _ _ _ _ Hle Hs).
  cbn [mbind option_bind].
  destruct (destsize <=? dlen); [by intros [= <-]|].
  apply store_bytes_frame.
Qed.

Lemma store_bytes_length bs : ∀ m p m',
  store_bytes m p bs = Some m' → length m' = length m.
Proof.
  induction bs as [|c bs IH]; intros m p m'; simpl; [by intros [= <-]|].
  unfold store at 1. destruct (in_bounds m p); [|done]. simpl.
  intros Hs%IH. by rewrite length_insert in Hs.
Qed.

End Frame.

(** ** Log::FormatLog: the text it leaves in the buffer *)

Section FormatLogSpec.
Context {hdr : LogHeader} {libc : Libc}.
Implicit Types (buffer beyond fmt : list ascii) (argList : va_list).

Lemma FormatLog_prefix_spec buffer bufferSize messageType :
  1 ≤ bufferSize → Z.of_nat (length buffer) = bufferSize →
  ∃ m1, FormatLog_prefix buffer bufferSize messageType
        = Some (m1, bool_decide (newline_of messageType ≠ []))
        ∧ length m1 = length buffer ∧ NUL ∈ m1
        ∧ cstring m1 = truncate (bufferSize - 1) (prefix_of messageType).
Proof.
  intros Hsz Hlen. unfold FormatLog_prefix, prefix_of, newline_of.
  assert (Hzero : ∃ m1, store buffer 0 NUL = Some m1 ∧ length m1 = length buffer
                        ∧ NUL ∈ m1 ∧ cstring m1 = []).
  { destruct buffer as [|c0 rest]; [simpl in Hlen; lia|].
    exists (NUL :: rest). split; [done|]. split; [done|]. split; [set_solver|done]. }
  assert (Hcpy : ∀ src, NUL ∉ src →
            ∃ m1, OVR_strcpy buffer 0 bufferSize src = Some m1
                  ∧ length m1 = length buffer ∧ NUL ∈ m1
                  ∧ cstring m1 = truncate (bufferSize - 1) src).
  { intros src Hsrc.
    destruct (OVR_strcpy_spec buffer bufferSize src) as (m1 & ? & ? & ? & Hc);
      [lia|]. exists m1. repeat split; try done.
    by rewrite Hc, cstring_id. }
  destruct (messageType =? Log_Error).
  { destruct (Hcpy (cstr "Error: ")) as (m1 & -> & ? & ? & ?);
      [by apply no_NUL|]. by exists m1. }
  destruct (messageType =? Log_Debug).
  { destruct (Hcpy (cstr "Debug: ")) as (m1 & -> & ? & ? & ?);
      [by apply no_NUL|]. by exists m1. }
  destruct (messageType =? Log_Assert).
  { destruct (Hcpy (cstr "Assert: ")) as (m1 & -> & ? & ? & ?);
      [by apply no_NUL|]. by exists m1. }
  destruct Hzero as (m1 & -> & ? & ? & Hc).
  exists m1. rewrite Hc.
  by destruct (messageType =? Log_Text), (messageType =? Log_DebugText).
Qed.

(** For a buffer of at least one character, FormatLog leaves the first
    [bufferSize - 1] characters of prefix, payload and line end in it,
    terminated. *)
Lemma FormatLog_text buffer bufferSize messageType fmt argList :
  1 ≤ bufferSize < 2 ^ 32 → Z.of_nat (length buffer) = bufferSize →
  ∃ m', FormatLog buffer bufferSize messageType fmt argList = Some m'
        ∧ length m' = length buffer ∧ NUL ∈ m'
        ∧ cstring m' =
          truncate (bufferSize - 1)
            (prefix_of messageType ++ cstring (vformat fmt argList)
             ++ newline_of messageType).
Proof.
  intros Hsz Hlen. unfold FormatLog.
  destruct (FormatLog_prefix_spec buffer bufferSize messageType)
    as (m1 & -> & Hl1 & Hn1 & Hc1); [lia|done|].
  cbn [mbind option_bind]. rewrite OVR_strlen_spec by done.
  cbn [mbind option_bind].
  pose proof (cstring_lt m1 Hn1) as Hlt1.
  assert (Hwrap : wrap_size_t (bufferSize - Z.of_nat (length (cstring m1)))
                  = Z.of_nat (length m1) - Z.of_nat (length (cstring m1))).
  { unfold wrap_size_t, size_t_bits. rewrite Z.mod_small; lia. }
  rewrite Hwrap.
  destruct (OVR_vsprintf_spec m1 _ (vformat fmt argList) Hn1 eq_refl)
    as (m2 & -> & Hl2 & Hn2 & Hc2).
  cbn [mbind option_bind].
  assert (Hpay : cstring m2 =
            truncate (bufferSize - 1)
              (prefix_of messageType ++ cstring (vformat fmt argList))).
  { rewrite <- truncate_fill, Hc2, Hc1 by lia. do 2 f_equal. lia. }
  case_bool_decide as Hnl.
  - destruct (OVR_strcat_spec m2 bufferSize newline Hn2)
      as (m3 & -> & Hl3 & Hn3 & Hc3); [lia|].
    exists m3. repeat split; [congruence | done |].
    rewrite Hc3, Hpay, truncate_fill, <- app_assoc by lia. do 3 f_equal.
    unfold newline_of in *.
    by destruct ((messageType =? Log_Error) || (messageType =? Log_Debug)
                 || (messageType =? Log_Assert)).
  - exists m2. repeat split; [congruence | done |].
    by rewrite Hnl, app_nil_r.
Qed.

(** Cells behind the stated capacity keep their contents. *)
Lemma FormatLog_frame buffer beyond bufferSize messageType fmt argList m' :
  FormatLog buffer bufferSize messageType fmt argList = Some m' →
  FormatLog (buffer ++ beyond) bufferSize messageType fmt argList
  = Some (m' ++ beyond).
Proof.
  unfold FormatLog.
  assert (Hpre : ∀ r, FormatLog_prefix buffer bufferSize messageType = Some r →
            FormatLog_prefix (buffer ++ beyond) bufferSize messageType
            = Some (r.1 ++ beyond, r.2)).
  { intros r. unfold FormatLog_prefix.
    repeat match goal with
           | |- context [if ?b then _ else _] => destruct b
           end;
      match goal with
      | |- context [OVR_strcpy buffer ?d ?n ?src] =>
          destruct (OVR_strcpy buffer d n src) as [m1|] eqn:Hs; [|done];
          rewrite (OVR_strcpy_frame _ beyond _ _ _ _ Hs)
      | |- context [store buffer ?p ?c] =>
          destruct (store buffer p c) as [m1|] eqn:Hs; [|done];
          rewrite (store_frame _ beyond _ _ _ Hs)
      end; by intros [= <-]. }
  destruct (FormatLog_prefix buffer bufferSize messageType) as [[m1 nl]|];
    [|done].
  rewrite (Hpre _ eq_refl). cbn [mbind option_bind fst snd].
  destruct (OVR_strlen m1 0) as [plen|] eqn:Hlen; [|done].
  rewrite (OVR_strlen_frame _ beyond _ _ Hlen). cbn [mbind option_bind].
  destruct (OVR_vsprintf m1 (0 + plen) _ _) as [m2|] eqn:Hv; [|done].
  rewrite (OVR_vsprintf_frame _ beyond _ _ _ _ Hv). cbn [mbind option_bind].
  destruct nl; [apply OVR_strcat_frame | by intros [= <-]].
Qed.

End FormatLogSpec.

(** ** Log::FormatLog: what the specification states *)

Section FormatLogClaims.
Context {hdr : LogHeader} {libc : Libc}.
Implicit Types (buffer beyond fmt : list ascii) (argList : va_list).

Lemma enumerators_distinct :
  NoDup enumerators →
  Log_Text ≠ Log_Error ∧ Log_Text ≠ Log_Debug ∧ Log_Text ≠ Log_Assert
  ∧ Log_DebugText ≠ Log_Error ∧ Log_DebugText ≠ Log_Debug
  ∧ Log_DebugText ≠ Log_Assert
  ∧ Log_Debug ≠ Log_Error ∧ Log_Assert ≠ Log_Error ∧ Log_Assert ≠ Log_Debug.
Proof.
  unfold enumerators. rewrite !NoDup_cons, !not_elem_of_cons.
  intuition congruence.
Qed.

Lemma prefix_newline_named :
  NoDup enumerators →
  (prefix_of Log_Error = cstr "Error: " ∧ newline_of Log_Error = newline)
  ∧ (prefix_of Log_Debug = cstr "Debug: " ∧ newline_of Log_Debug = newline)
  ∧ (prefix_of Log_Assert = cstr "Assert: " ∧ newline_of Log_Assert = newline)
  ∧ (prefix_of Log_Text = [] ∧ newline_of Log_Text = [])
  ∧ (prefix_of Log_DebugText = [] ∧ newline_of Log_DebugText = []).
Proof.
  intros (? & ? & ? & ? & ? & ? & ? & ? & ?)%enumerators_distinct.
  unfold prefix_of, newline_of. repeat split; eqb_cases.
Qed.

Lemma prefix_newline_other messageType :
  messageType ∉ enumerators →
  prefix_of messageType = [] ∧ newline_of messageType = [].
Proof.
  unfold enumerators. rewrite !not_elem_of_cons.
  intros (? & ? & ? & ? & ? & _).
  unfold prefix_of, newline_of. split; eqb_cases.
Qed.

(** C2, as amended. For each of the five enumerators and a buffer of at
    least one character, FormatLog leaves in the buffer the first
    [bufferSize - 1] characters of: the prefix ("Error: ", "Debug: ",
    "Assert: ", none for Text and DebugText), the rendered payload, and a
    line feed for every type except Text and DebugText. The line feed is
    therefore present exactly when prefix and payload leave room for it. *)
Theorem FormatLog_five_types buffer bufferSize fmt argList :
  NoDup enumerators →
  1 ≤ bufferSize < 2 ^ 32 → Z.of_nat (length buffer) = bufferSize →
  let payload := cstring (vformat fmt argList) in
  let text messageType :=
    cstring <$> FormatLog buffer bufferSize messageType fmt argList in
  text Log_Error
    = Some (truncate (bufferSize - 1) (cstr "Error: " ++ payload ++ newline))
  ∧ text Log_Debug
    = Some (truncate (bufferSize - 1) (cstr "Debug: " ++ payload ++ newline))
  ∧ text Log_Assert
    = Some (truncate (bufferSize - 1) (cstr "Assert: " ++ payload ++ newline))
  ∧ text Log_Text = Some (truncate (bufferSize - 1) payload)
  ∧ text Log_DebugText = Some (truncate (bufferSize - 1) payload).
Proof.
  intros Hd Hsz Hlen payload text. subst text payload.
  destruct (prefix_newline_named Hd)
    as ((PE & NE) & (PD & ND) & (PA & NA) & (PT & NT) & (PX & NX)).
  repeat split.
  - destruct (FormatLog_text buffer bufferSize Log_Error fmt argList Hsz Hlen)
      as (m' & -> & _ & _ & Hc). simpl. by rewrite Hc, PE, NE.
  - destruct (FormatLog_text buffer bufferSize Log_Debug fmt argList Hsz Hlen)
      as (m' & -> & _ & _ & Hc). simpl. by rewrite Hc, PD, ND.
  - destruct (FormatLog_text buffer bufferSize Log_Assert fmt argList Hsz Hlen)
      as (m' & -> & _ & _ & Hc). simpl. by rewrite Hc, PA, NA.
  - destruct (FormatLog_text buffer bufferSize Log_Text fmt argList Hsz Hlen)
      as (m' & -> & _ & _ & Hc). simpl. by rewrite Hc, PT, NT, app_nil_r.
  - destruct (FormatLog_text buffer bufferSize Log_DebugText fmt argList Hsz Hlen)
      as (m' & -> & _ & _ & Hc). simpl. by rewrite Hc, PX, NX, app_nil_r.
Qed.

(** C3, as amended. For a stated capacity of at least one character,
    FormatLog writes only below the capacity: run on the buffer followed by
    any further memory it succeeds and returns that further memory as it
    was (with none, the allocation ends at the capacity and no access
    faults); the buffer holds a terminator at an index below the capacity;
    and its text is the first [bufferSize - 1] characters of prefix,
    payload and line end, so a longer payload is cut. *)
Theorem FormatLog_bounded buffer beyond bufferSize messageType fmt argList :
  1 ≤ bufferSize < 2 ^ 32 → Z.of_nat (length buffer) = bufferSize →
  ∃ m', FormatLog (buffer ++ beyond) bufferSize messageType fmt argList
        = Some (m' ++ beyond)
        ∧ Z.of_nat (length m') = bufferSize
        ∧ (∃ i, 0 ≤ i < bufferSize ∧ m' !! Z.to_nat i = Some NUL
                ∧ cstring m' = take (Z.to_nat i) m')
        ∧ cstring m' =
          truncate (bufferSize - 1)
            (prefix_of messageType ++ cstring (vformat fmt argList)
             ++ newline_of messageType).
Proof.
  intros Hsz Hlen.
  destruct (FormatLog_text buffer bufferSize messageType fmt argList Hsz Hlen)
    as (m' & Hrun & Hl & Hnul & Htext).
  exists m'. split; [by apply FormatLog_frame|]. split; [lia|].
  split; [|done].
  exists (Z.of_nat (length (cstring m'))).
  pose proof (cstring_lt m' Hnul). rewrite Nat2Z.id.
  split; [lia|]. split; [|by rewrite take_cstring].
  destruct (cstring_split m' Hnul) as [rest Hm].
  generalize (eq_refl (length (cstring m'))).
  generalize (length (cstring m')) at 1 3. intros n Hn.
  rewrite Hm. by apply list_lookup_middle.
Qed.

(** C10. A message type that is none of the five enumerators takes the
    default branch: the prefix step only stores a terminator at the start of
    the buffer and clears [addNewline], the whole call behaves as it does
    for Text and for DebugText, and on a buffer of at least one character it
    returns with the rendered payload alone (cut to the capacity). *)
Theorem FormatLog_default_branch messageType :
  NoDup enumerators → messageType ∉ enumerators →
  ∀ buffer bufferSize fmt argList,
    FormatLog_prefix buffer bufferSize messageType
    = (m ← store buffer 0 NUL; Some (m, false))
    ∧ FormatLog buffer bufferSize messageType fmt argList
      = FormatLog buffer bufferSize Log_Text fmt argList
    ∧ FormatLog buffer bufferSize messageType fmt argList
      = FormatLog buffer bufferSize Log_DebugText fmt argList
    ∧ (1 ≤ bufferSize < 2 ^ 32 → Z.of_nat (length buffer) = bufferSize →
       ∃ m', FormatLog buffer bufferSize messageType fmt argList = Some m'
             ∧ cstring m'
               = truncate (bufferSize - 1) (cstring (vformat fmt argList))).
Proof.
  intros Hd Hother buffer bufferSize fmt argList.
  pose proof (enumerators_distinct Hd) as Hne.
  assert (Hdefault : ∀ ty,
            ty ≠ Log_Error → ty ≠ Log_Debug → ty ≠ Log_Assert →
            FormatLog_prefix buffer bufferSize ty
            = (m ← store buffer 0 NUL; Some (m, false))).
  { intros ty ? ? ?. unfold FormatLog_prefix.
    destruct (Z.eqb_spec ty Log_Error); [done|].
    destruct (Z.eqb_spec ty Log_Debug); [done|].
    destruct (Z.eqb_spec ty Log_Assert); [done|].
    by destruct (ty =? Log_Text), (ty =? Log_DebugText). }
  assert (Hmt : messageType ≠ Log_Error ∧ messageType ≠ Log_Debug
                ∧ messageType ≠ Log_Assert).
  { revert Hother. unfold enumerators. rewrite !not_elem_of_cons. tauto. }
  destruct Hmt as (? & ? & ?).
  split; [by apply Hdefault|].
  split; [|split].
  - unfold FormatLog. rewrite !Hdefault; [done|tauto..].
  - unfold FormatLog. rewrite !Hdefault; [done|tauto..].
  - intros Hsz Hlen.
    destruct (FormatLog_text buffer bufferSize messageType fmt argList Hsz Hlen)
      as (m' & -> & _ & _ & Hc). exists m'. split; [done|].
    destruct (prefix_newline_other messageType Hother) as [Hp Hn].
    by rewrite Hc, Hp, Hn, app_nil_r.
Qed.

End FormatLogClaims.

(** ** The sink: filtering, routing and the global pointer *)

Section LoggerClaims.
Context {hdr : LogHeader} {build : Build} {libc : Libc}.
Implicit Types (w : World) (fmt text : list ascii) (argList args : va_list).

Lemma DefaultLogOutput_effect messageType text w :
  ∃ o, output (DefaultLogOutput messageType text w) = output w ++ [o]
       ∧ FormatLog_calls (DefaultLogOutput messageType text w) = FormatLog_calls w
       ∧ OVR_GlobalLog (DefaultLogOutput messageType text w) = OVR_GlobalLog w
       ∧ objects (DefaultLogOutput messageType text w) = objects w.
Proof.
  unfold DefaultLogOutput.
  destruct OVR_OS_WIN32; [|destruct OVR_OS_ANDROID];
    repeat match goal with
           | |- context [match ?x with _ => _ end] => destruct x
           end; simpl; eauto.
Qed.

(** C1. Called on a live sink, LogMessageVarg (and LogMessage, its
    variadic front) returns; it enters FormatLog once and writes one message
    to the output exactly when the type shares a bit with the sink's
    LoggingMask and the message is not debug-only or the build is a debug
    build; otherwise the process state is exactly what it was, so neither
    formatting nor output happened. In a build without OVR_BUILD_DEBUG a
    debug-classified type leaves the state unchanged whatever the mask. *)
Theorem LogMessageVarg_gate this self messageType fmt argList w :
  objects w !! this = Some self →
  1 ≤ MaxLogBufferMessageSize < 2 ^ 32 →
  Z.of_nat (length (auto_array MaxLogBufferMessageSize)) = MaxLogBufferMessageSize →
  let pass := category_enabled messageType (LoggingMask self)
              && debug_permitted messageType in
  ∃ w', LogMessageVarg this messageType fmt argList w = Some w'
        ∧ LogMessage this messageType fmt argList w = Some w'
        ∧ (if pass then
             ∃ buffer' o,
               FormatLog (auto_array MaxLogBufferMessageSize)
                 MaxLogBufferMessageSize messageType fmt argList = Some buffer'
               ∧ w' = DefaultLogOutput messageType (cstring buffer') (enter_FormatLog w)
               ∧ FormatLog_calls w' = S (FormatLog_calls w)
               ∧ output w' = output w ++ [o]
           else w' = w)
        ∧ (pass = true ↔ output w' ≠ output w)
        ∧ (pass = true ↔ FormatLog_calls w' ≠ FormatLog_calls w)
        ∧ (OVR_BUILD_DEBUG = false → IsDebugMessage messageType = true → w' = w).
Proof.
  intros Hself Hmax Hauto pass.
  unfold LogMessage, LogMessageVarg. rewrite Hself. cbn [mbind option_bind].
  subst pass. unfold category_enabled, debug_permitted.
  destruct (Z.land messageType (LoggingMask self) =? 0) eqn:Hmask.
  { exists w. cbn [negb andb]. repeat split; done. }
  destruct OVR_BUILD_DEBUG eqn:Hdbg, (IsDebugMessage messageType) eqn:Hmsg;
    cbn [negb andb orb].
  3:{ exists w. repeat split; done. }
  all: destruct (FormatLog_text (auto_array MaxLogBufferMessageSize)
                   MaxLogBufferMessageSize messageType fmt argList Hmax Hauto)
         as (buffer' & -> & _ & _ & _); cbn [mbind option_bind];
       destruct (DefaultLogOutput_effect messageType (cstring buffer')
                   (enter_FormatLog w)) as (o & Ho & Hc & _ & _);
       simpl in Ho, Hc;
       eexists; split; [done|]; split; [done|];
       (split; [by exists buffer', o|]);
       (split; [split; [intros _; rewrite Ho; intros Heq;
                         apply (f_equal length) in Heq;
                         rewrite length_app in Heq; simpl in Heq; lia | done]|]);
       (split; [split; [intros _; rewrite Hc; lia | done]|]); done.
Qed.

(** C9, as amended. DefaultLogOutput writes the text once, to the channel
    of the platform. On Win32 the static [hasConsole] is the answer of the
    console probe at the first call and is kept by every later call; the
    text goes to standard output exactly when [hasConsole] holds and the
    type is not debug-classified, and to the debugger otherwise. On Android it goes to the log service under the tag
    "OVR": with debug priority for DebugText and Debug, with error priority
    for Assert and Error, with info priority for every other type.
    Elsewhere it goes to standard output. *)
Theorem DefaultLogOutput_routing messageType text w :
  let w' := DefaultLogOutput messageType text w in
  let console :=
    default (os_StdHandle_valid w && os_GetConsoleMode w) (hasConsole w) in
  (OVR_OS_WIN32 = true →
     hasConsole w' = Some console
     ∧ output w' = output w ++
         [if console && negb (IsDebugMessage messageType)
          then fputs_stdout text else OutputDebugStringA text])
  ∧ (OVR_OS_WIN32 = false → OVR_OS_ANDROID = true →
     ∃ prio, output w' = output w ++ [android_log_write prio (cstr "OVR") text]
       ∧ (messageType = Log_DebugText ∨ messageType = Log_Debug →
          prio = ANDROID_LOG_DEBUG)
       ∧ (NoDup enumerators →
          messageType = Log_Assert ∨ messageType = Log_Error →
          prio = ANDROID_LOG_ERROR)
       ∧ (messageType ≠ Log_DebugText → messageType ≠ Log_Debug →
          messageType ≠ Log_Assert → messageType ≠ Log_Error →
          prio = ANDROID_LOG_INFO))
  ∧ (OVR_OS_WIN32 = false → OVR_OS_ANDROID = false →
     output w' = output w ++ [fputs_stdout text]).
Proof.
  intros w' console. subst w' console. unfold DefaultLogOutput.
  split; [|split].
  - intros ->. destruct (hasConsole w) as [b|] eqn:Hc; simpl.
    + by destruct b, (IsDebugMessage messageType); simpl; rewrite Hc.
    + by destruct (os_StdHandle_valid w && os_GetConsoleMode w),
           (IsDebugMessage messageType).
  - intros -> ->. eexists. split; [done|]. split; [|split].
    + intros [-> | ->]; eqb_cases; by rewrite orb_true_r.
    + intros (? & ? & ? & ? & ? & ? & ? & ? & ?)%enumerators_distinct
        [-> | ->]; eqb_cases; by rewrite orb_true_r.
    + intros. eqb_cases.
  - by intros -> ->.
Qed.

(** C4. The destructor of the sink at [this] sets OVR_GlobalLog to null
    when it holds [this], and leaves it as it is when it is null or holds
    another address; so after the active global sink is destroyed
    GetGlobalLog returns null. *)
Theorem Log_destructor_global this w :
  let w' := Log_destructor this w in
  (this = OVR_GlobalLog w → OVR_GlobalLog w' = 0 ∧ (GetGlobalLog w').2 = 0)
  ∧ (this ≠ OVR_GlobalLog w → OVR_GlobalLog w' = OVR_GlobalLog w)
  ∧ (OVR_GlobalLog w = 0 → OVR_GlobalLog w' = 0)
  ∧ objects w' !! this = None.
Proof.
  intros w'. subst w'. unfold Log_destructor, GetGlobalLog.
  destruct (Z.eqb_spec this (OVR_GlobalLog w)) as [Heq|Hne]; simpl.
  - repeat split; try done. by rewrite lookup_delete_eq.
  - repeat split; try done. by rewrite lookup_delete_eq.
Qed.

(** C5. With a null OVR_GlobalLog each of the five logging functions
    returns with the process state unchanged; with a sink installed each is
    exactly a call of that sink's LogMessageVarg with its own type: Log_Text,
    Log_Error, Log_Debug, Log_DebugText and Log_Assert. *)
Theorem LogFn_forwarding fmt args w :
  (OVR_GlobalLog w = 0 →
     LogText fmt args w = Some w ∧ LogError fmt args w = Some w
     ∧ LogDebug fmt args w = Some w ∧ LogDebugText fmt args w = Some w
     ∧ LogAssert fmt args w = Some w)
  ∧ (OVR_GlobalLog w ≠ 0 →
     LogText fmt args w = LogMessageVarg (OVR_GlobalLog w) Log_Text fmt args w
     ∧ LogError fmt args w = LogMessageVarg (OVR_GlobalLog w) Log_Error fmt args w
     ∧ LogDebug fmt args w = LogMessageVarg (OVR_GlobalLog w) Log_Debug fmt args w
     ∧ LogDebugText fmt args w
       = LogMessageVarg (OVR_GlobalLog w) Log_DebugText fmt args w
     ∧ LogAssert fmt args w = LogMessageVarg (OVR_GlobalLog w) Log_Assert fmt args w).
Proof.
  unfold LogText, LogError, LogDebug, LogDebugText, LogAssert, LogFn.
  split.
  - intros ->. done.
  - intros Hne. apply Z.eqb_neq in Hne. rewrite Hne. done.
Qed.




End LoggerClaims.

(** ** The Win32 Lock: which initializer a construction uses *)

Import Atomic.

Section LockClaims.
Context {win : Win32Build} {os : Kernel32}.
Implicit Types (w : Process) (locks : list (Z * Z)).

Lemma Lock_constructor_tried cs spinCount w :
  NTDDI_WIN8_API = false → initTried w = true →
  Lock_constructor cs spinCount w
  = os_call (initializer_for (pInitFn w) (cs, spinCount)) w.
Proof.
  intros Hapi Htried. unfold Lock_constructor, initializer_for.
  rewrite Hapi, Htried. simpl. by destruct (pInitFn w =? 0).
Qed.

Lemma Lock_constructor_untried cs spinCount w :
  NTDDI_WIN8_API = false → initTried w = false →
  Lock_constructor cs spinCount w
  = os_call (initializer_for (pInitFn (probe w)) (cs, spinCount)) (probe w).
Proof.
  intros Hapi Htried. unfold Lock_constructor, initializer_for.
  rewrite Hapi, Htried. simpl. by destruct (os_GetProcAddress _ _ _ =? 0).
Qed.

Lemma construct_all_tried locks : ∀ w,
  NTDDI_WIN8_API = false → initTried w = true →
  construct_all locks w
  = {| initTried := true; pInitFn := pInitFn w;
       calls := calls w ++ map (initializer_for (pInitFn w)) locks |}.
Proof.
  induction locks as [|[cs spinCount] locks IH]; intros w Hapi Htried.
  - simpl. rewrite app_nil_r. destruct w; simpl in *. by subst.
  - simpl. rewrite Lock_constructor_tried by done.
    rewrite IH by done. simpl. by rewrite <- app_assoc.
Qed.

Lemma no_probe_in_initializers fn locks :
  filter (λ c, is_GetProcAddress c = true) (map (initializer_for fn) locks) = []
  ∧ filter (λ c, is_LoadLibrary c = true) (map (initializer_for fn) locks) = [].
Proof.
  induction locks as [|lock locks [IH1 IH2]]; [done|]. simpl.
  unfold initializer_for at 1 3. destruct (fn =? 0).
  - rewrite !filter_cons_False by done. done.
  - rewrite !filter_cons_False by done. done.
Qed.

(** C7. With the Windows 8 API at compile time the constructor calls
    InitializeCriticalSectionEx with the spin count and nothing else.
    Without it, a constructor that finds [initTried] clear loads the core
    library, resolves the spin-count initializer and records the answer; a
    constructor that finds it set makes no probe; either way the recorded
    address is called with the spin count when it is not null and the plain
    InitializeCriticalSection is called when it is null. From process start,
    any sequence of constructions therefore makes exactly one LoadLibrary
    and one GetProcAddress call, before the first initialization, and every
    construction of the sequence uses the initializer that one answer
    selects. *)
Theorem Lock_constructor_initializer :
  (NTDDI_WIN8_API = true →
     ∀ cs spinCount w,
       Lock_constructor cs spinCount w
       = os_call (InitializeCriticalSectionEx cs spinCount
                    (OVR_DEBUG_SELECT 0 CRITICAL_SECTION_NO_DEBUG_INFO)) w)
  ∧ (NTDDI_WIN8_API = false →
     (∀ cs spinCount w, initTried w = true →
        Lock_constructor cs spinCount w
        = os_call (initializer_for (pInitFn w) (cs, spinCount)) w)
     ∧ (∀ cs spinCount w, initTried w = false →
          let hmodule := os_LoadLibrary (calls w) kernel32_dll in
          let fn := os_GetProcAddress (calls w ++ [LoadLibrary kernel32_dll])
                      hmodule spin_initializer in
          Lock_constructor cs spinCount w
          = {| initTried := true; pInitFn := fn;
               calls := calls w ++ [LoadLibrary kernel32_dll;
                                    GetProcAddress hmodule spin_initializer;
                                    initializer_for fn (cs, spinCount)] |})
     ∧ (∀ lock locks,
          let hmodule := os_LoadLibrary [] kernel32_dll in
          let fn := os_GetProcAddress [LoadLibrary kernel32_dll]
                      hmodule spin_initializer in
          let w' := construct_all (lock :: locks) start in
          calls w' = [LoadLibrary kernel32_dll;
                      GetProcAddress hmodule spin_initializer]
                     ++ map (initializer_for fn) (lock :: locks)
          ∧ initTried w' = true ∧ pInitFn w' = fn
          ∧ length (filter (λ c, is_GetProcAddress c = true) (calls w')) = 1%nat
          ∧ length (filter (λ c, is_LoadLibrary c = true) (calls w')) = 1%nat)).
Proof.
  split.
  - intros Hapi cs spinCount w. unfold Lock_constructor. by rewrite Hapi.
  - intros Hapi. split; [|split].
    + intros. by apply Lock_constructor_tried.
    + intros cs spinCount w Htried. cbv zeta.
      rewrite Lock_constructor_untried by done.
      unfold probe, os_call. simpl. f_equal. by rewrite <- !app_assoc.
    + intros [cs spinCount] locks. cbv zeta.
      assert (Hcalls : construct_all ((cs, spinCount) :: locks) start
        = {| initTried := true;
             pInitFn := os_GetProcAddress [LoadLibrary kernel32_dll]
                          (os_LoadLibrary [] kernel32_dll) spin_initializer;
             calls := [LoadLibrary kernel32_dll;
                       GetProcAddress (os_LoadLibrary [] kernel32_dll)
                         spin_initializer]
                      ++ map (initializer_for
                                (os_GetProcAddress [LoadLibrary kernel32_dll]
                                   (os_LoadLibrary [] kernel32_dll)
                                   spin_initializer))
                           ((cs, spinCount) :: locks) |}).
      { cbn [construct_all].
        rewrite Lock_constructor_untried by done.
        rewrite construct_all_tried by done. done. }
      rewrite Hcalls. cbn [calls initTried pInitFn].
      repeat split.
      * rewrite filter_app.
        rewrite (proj1 (no_probe_in_initializers _ _)). done.
      * rewrite filter_app.
        rewrite (proj2 (no_probe_in_initializers _ _)). done.
Qed.

End LockClaims.

(** ** The theorems at concrete inputs *)

Section Examples.
Local Existing Instances example_header example_libc.

Lemma example_enumerators_distinct : NoDup enumerators.
Proof.
  unfold enumerators. rewrite !NoDup_cons, !not_elem_of_cons.
  repeat split; try (by vm_compute); try apply not_elem_of_nil.
  apply NoDup_nil_2.
Defined.

Lemma example_other_type : 777 ∉ enumerators.
Proof.
  unfold enumerators. rewrite !not_elem_of_cons.
  repeat split; try (by vm_compute). apply not_elem_of_nil.
Defined.

(** C2 as stated fails: with a capacity of ten characters the prefix and
    two characters of the payload fill the buffer, and the text FormatLog
    leaves for an Error message is "Error: ab", which is no prefix, payload
    and line feed. *)
Lemma FormatLog_newline_dropped :
  cstring <$> FormatLog (auto_array 10) 10 Log_Error (cstr "abcdef") []
  = Some (cstr "Error: ab")
  ∧ ¬ ∃ m' payload,
        FormatLog (auto_array 10) 10 Log_Error (cstr "abcdef") [] = Some m'
        ∧ cstring m' = cstr "Error: " ++ payload ++ newline.
Proof.
  split; [by vm_compute|].
  intros (m' & payload & Hrun & Htext).
  vm_compute in Hrun. injection Hrun as <-.
  vm_compute in Htext.
  by destruct payload as [|c1 [|c2 [|c3 payload]]].
Qed.

Lemma FormatLog_five_types_witness :
  (NoDup enumerators ∧ (1 ≤ 4096 < 2 ^ 32)
   ∧ Z.of_nat (length (auto_array 4096)) = 4096)
  ∧ cstring <$> FormatLog (auto_array 4096) 4096 Log_Error (cstr "x=%d") [ArgInt 5]
    = Some (cstr "Error: x=5" ++ newline)
  ∧ cstring <$> FormatLog (auto_array 4096) 4096 Log_Text (cstr "hi") []
    = Some (cstr "hi").
Proof.
  assert (Hsz : 1 ≤ 4096 < 2 ^ 32) by lia.
  split; [split; [exact example_enumerators_distinct | split; [exact Hsz | reflexivity]]|].
  split.
  - exact (proj1 (FormatLog_five_types (auto_array 4096) 4096 (cstr "x=%d")
                    [ArgInt 5] example_enumerators_distinct Hsz eq_refl)).
  - exact (proj1 (proj2 (proj2 (proj2
             (FormatLog_five_types (auto_array 4096) 4096 (cstr "hi")
                [] example_enumerators_distinct Hsz eq_refl))))).
Defined.

(** C3 as stated fails for a capacity of zero: the Text branch stores the
    terminator in [buffer[0]], the cell at the bound. In an allocation of
    no cells that store faults; in front of other memory it overwrites the
    first cell of that memory. *)
Lemma FormatLog_zero_capacity :
  FormatLog [] 0 Log_Text (cstr "hi") [] = None
  ∧ FormatLog ([] ++ cstr "abcd") 0 Log_Text (cstr "hi") []
    = Some (NUL :: cstr "bcd")
  ∧ ¬ ∃ m', FormatLog ([] ++ cstr "abcd") 0 Log_Text (cstr "hi") []
            = Some (m' ++ cstr "abcd")
            ∧ Z.of_nat (length m') = 0.
Proof.
  split; [by vm_compute|]. split; [by vm_compute|].
  intros (m' & Hrun & Hlen). destruct m' as [|c m']; [|simpl in Hlen; lia].
  vm_compute in Hrun. done.
Qed.

Lemma FormatLog_bounded_witness :
  ((1 ≤ 8 < 2 ^ 32) ∧ Z.of_nat (length (auto_array 8)) = 8)
  ∧ ∃ m', FormatLog (auto_array 8 ++ cstr "guard") 8 Log_Error
            (cstr "overflowing payload") []
          = Some (m' ++ cstr "guard")
          ∧ Z.of_nat (length m') = 8
          ∧ (∃ i, 0 ≤ i < 8 ∧ m' !! Z.to_nat i = Some NUL
                  ∧ cstring m' = take (Z.to_nat i) m')
          ∧ cstring m' = cstr "Error: ".
Proof.
  assert (Hsz : 1 ≤ 8 < 2 ^ 32) by lia.
  split; [split; [exact Hsz | reflexivity]|].
  exact (FormatLog_bounded (auto_array 8) (cstr "guard") 8 Log_Error
           (cstr "overflowing payload") [] Hsz eq_refl).
Defined.

Lemma FormatLog_default_branch_witness :
  (NoDup enumerators ∧ (777 ∉ enumerators) ∧ (1 ≤ 16 < 2 ^ 32)
   ∧ Z.of_nat (length (auto_array 16)) = 16)
  ∧ FormatLog (auto_array 16) 16 777 (cstr "hi %d") [ArgInt (-42)]
    = FormatLog (auto_array 16) 16 Log_Text (cstr "hi %d") [ArgInt (-42)]
  ∧ ∃ m', FormatLog (auto_array 16) 16 777 (cstr "hi %d") [ArgInt (-42)] = Some m'
          ∧ cstring m' = cstr "hi -42".
Proof.
  assert (Hsz : 1 ≤ 16 < 2 ^ 32) by lia.
  split; [split; [exact example_enumerators_distinct
                 | split; [exact example_other_type
                          | split; [exact Hsz | reflexivity]]]|].
  pose proof (FormatLog_default_branch 777 example_enumerators_distinct
                example_other_type (auto_array 16) 16 (cstr "hi %d")
                [ArgInt (-42)]) as (_ & Htext & _ & Hrun).
  split; [exact Htext | exact (Hrun Hsz eq_refl)].
Defined.

End Examples.

Section LoggerExamples.
Local Existing Instances example_header example_libc.

Lemma LogMessageVarg_gate_witness :
  (objects example_world !! 0x1000 = Some all_categories
   ∧ (1 ≤ MaxLogBufferMessageSize < 2 ^ 32)
   ∧ Z.of_nat (length (auto_array MaxLogBufferMessageSize))
     = MaxLogBufferMessageSize)
  ∧ (∃ w', LogMessageVarg (build := release_build false false) 0x1000 Log_Error
             (cstr "x=%d") [ArgInt 5] example_world = Some w'
           ∧ output w' = [fputs_stdout (cstr "Error: x=5" ++ newline)]
           ∧ FormatLog_calls w' = 1%nat)
  ∧ LogMessageVarg (build := release_build false false) 0x1000 Log_Debug
      (cstr "x=%d") [ArgInt 5] example_world = Some example_world.
Proof.
  assert (Hsz : 1 ≤ MaxLogBufferMessageSize < 2 ^ 32) by (simpl; lia).
  assert (Hauto : Z.of_nat (length (auto_array MaxLogBufferMessageSize))
                  = MaxLogBufferMessageSize) by (vm_compute; reflexivity).
  split; [split; [reflexivity | split; [exact Hsz | exact Hauto]]|].
  split.
  - destruct (LogMessageVarg_gate (build := release_build false false)
                0x1000 all_categories Log_Error (cstr "x=%d") [ArgInt 5]
                example_world eq_refl Hsz Hauto)
      as (w' & Hrun & _ & Hpass & _).
    exists w'. split; [exact Hrun|]. simpl in Hpass.
    destruct Hpass as (buffer' & o & Hfmt & -> & _).
    vm_compute in Hfmt. injection Hfmt as <-. split; reflexivity.
  - destruct (LogMessageVarg_gate (build := release_build false false)
                0x1000 all_categories Log_Debug (cstr "x=%d") [ArgInt 5]
                example_world eq_refl Hsz Hauto)
      as (w' & Hrun & _ & _ & _ & _ & Hdebug).
    rewrite Hrun. f_equal. exact (Hdebug eq_refl eq_refl).
Defined.

Lemma DefaultLogOutput_routing_witness :
  (OVR_OS_WIN32 (Build := release_build true false) = true
   ∧ OVR_OS_WIN32 (Build := release_build false true) = false
   ∧ OVR_OS_ANDROID (Build := release_build false true) = true
   ∧ OVR_OS_ANDROID (Build := release_build false false) = false
   ∧ NoDup enumerators)
  ∧ output (DefaultLogOutput (build := release_build true false)
              Log_Error (cstr "disk full") example_world)
    = [fputs_stdout (cstr "disk full")]
  ∧ output (DefaultLogOutput (build := release_build true false)
              Log_Debug (cstr "tick") example_world)
    = [OutputDebugStringA (cstr "tick")]
  ∧ (∃ prio, output (DefaultLogOutput (build := release_build false true)
                       Log_Assert (cstr "failed") example_world)
             = [android_log_write prio (cstr "OVR") (cstr "failed")]
             ∧ prio = ANDROID_LOG_ERROR)
  ∧ output (DefaultLogOutput (build := release_build false false)
              Log_Error (cstr "disk full") example_world)
    = [fputs_stdout (cstr "disk full")].
Proof.
  split; [repeat split; exact example_enumerators_distinct|].
  split; [|split; [|split]].
  - exact (proj2 (proj1 (DefaultLogOutput_routing
             (build := release_build true false) Log_Error (cstr "disk full")
             example_world) eq_refl)).
  - exact (proj2 (proj1 (DefaultLogOutput_routing
             (build := release_build true false) Log_Debug (cstr "tick")
             example_world) eq_refl)).
  - destruct (proj1 (proj2 (DefaultLogOutput_routing
               (build := release_build false true) Log_Assert (cstr "failed")
               example_world)) eq_refl eq_refl) as (prio & Hout & _ & Herr & _).
    exists prio. split; [exact Hout|].
    exact (Herr example_enumerators_distinct (or_introl eq_refl)).
  - exact (proj2 (proj2 (DefaultLogOutput_routing
             (build := release_build false false) Log_Error (cstr "disk full")
             example_world)) eq_refl eq_refl).
Defined.

Lemma Log_destructor_global_witness :
  (0x1000 = OVR_GlobalLog example_world ∧ 0x2000 ≠ OVR_GlobalLog example_world
   ∧ OVR_GlobalLog (SetGlobalLog 0 example_world) = 0)
  ∧ (OVR_GlobalLog (Log_destructor 0x1000 example_world) = 0
     ∧ (GetGlobalLog (Log_destructor 0x1000 example_world)).2 = 0)
  ∧ OVR_GlobalLog (Log_destructor 0x2000 example_world) = 0x1000
  ∧ OVR_GlobalLog (Log_destructor 0x2000 (SetGlobalLog 0 example_world)) = 0.
Proof.
  assert (Hne : 0x2000 ≠ OVR_GlobalLog example_world) by (simpl; lia).
  split; [split; [reflexivity | split; [exact Hne | reflexivity]]|].
  split; [|split].
  - exact (proj1 (Log_destructor_global 0x1000 example_world) eq_refl).
  - exact (proj1 (proj2 (Log_destructor_global 0x2000 example_world)) Hne).
  - exact (proj1 (proj2 (proj2 (Log_destructor_global 0x2000
                                  (SetGlobalLog 0 example_world)))) eq_refl).
Defined.

Lemma LogFn_forwarding_witness :
  (OVR_GlobalLog (SetGlobalLog 0 example_world) = 0
   ∧ OVR_GlobalLog example_world ≠ 0)
  ∧ LogError (build := release_build false false) (cstr "x=%d") [ArgInt 5]
      (SetGlobalLog 0 example_world)
    = Some (SetGlobalLog 0 example_world)
  ∧ LogError (build := release_build false false) (cstr "x=%d") [ArgInt 5]
      example_world
    = LogMessageVarg (build := release_build false false) 0x1000 Log_Error
        (cstr "x=%d") [ArgInt 5] example_world.
Proof.
  assert (Hne : OVR_GlobalLog example_world ≠ 0) by (simpl; lia).
  split; [split; [reflexivity | exact Hne]|].
  split.
  - exact (proj1 (proj2 (proj1 (LogFn_forwarding
             (build := release_build false false) (cstr "x=%d") [ArgInt 5]
             (SetGlobalLog 0 example_world)) eq_refl))).
  - exact (proj1 (proj2 (proj2 (LogFn_forwarding
             (build := release_build false false) (cstr "x=%d") [ArgInt 5]
             example_world) Hne))).
Defined.


Lemma Lock_constructor_initializer_witness :
  (NTDDI_WIN8_API (Win32Build := legacy_build) = false
   ∧ NTDDI_WIN8_API (Win32Build := win8_build) = true)
  ∧ calls (construct_all (win := legacy_build) (os := kernel32_without_spin)
             [(0x10, 4000); (0x20, 0)] start)
    = [LoadLibrary kernel32_dll; GetProcAddress 0x77000000 spin_initializer;
       InitializeCriticalSection 0x10; InitializeCriticalSection 0x20]
  ∧ calls (construct_all (win := legacy_build) (os := kernel32_with_spin)
             [(0x10, 4000); (0x20, 0)] start)
    = [LoadLibrary kernel32_dll; GetProcAddress 0x77000000 spin_initializer;
       call_pInitFn 0x7700 0x10 4000; call_pInitFn 0x7700 0x20 0]
  ∧ calls (Lock_constructor (win := win8_build) (os := kernel32_with_spin)
             0x10 4000 start)
    = [InitializeCriticalSectionEx 0x10 4000 0x01000000].
Proof.
  split; [split; reflexivity|].
  split; [|split].
  - exact (proj1 (proj2 (proj2 (proj2 (Lock_constructor_initializer
             (win := legacy_build) (os := kernel32_without_spin)) eq_refl))
             (0x10, 4000) [(0x20, 0)])).
  - exact (proj1 (proj2 (proj2 (proj2 (Lock_constructor_initializer
             (win := legacy_build) (os := kernel32_with_spin)) eq_refl))
             (0x10, 4000) [(0x20, 0)])).
  - exact (f_equal calls (proj1 (Lock_constructor_initializer
             (win := win8_build) (os := kernel32_with_spin)) eq_refl
             0x10 4000 start)).
Defined.

End LoggerExamples.

(** * Further properties of the code *)

(** ** Log::FormatLog *)

Section FormatLogMore.
Context {hdr : LogHeader} {libc : Libc}.
Implicit Types (buffer fmt : list ascii) (argList : va_list).

(** X1. What the buffer held before the call does not show in the text:
    two buffers of the same capacity (at least one character) end up with
    the same text, and the call succeeds on both. *)
Theorem FormatLog_contents_irrelevant buffer1 buffer2 bufferSize messageType
    fmt argList :
  1 ≤ bufferSize < 2 ^ 32 →
  Z.of_nat (length buffer1) = bufferSize →
  Z.of_nat (length buffer2) = bufferSize →
  is_Some (FormatLog buffer1 bufferSize messageType fmt argList)
  ∧ cstring <$> FormatLog buffer1 bufferSize messageType fmt argList
    = cstring <$> FormatLog buffer2 bufferSize messageType fmt argList.
Proof.
  intros Hsz H1 H2.
  destruct (FormatLog_text buffer1 bufferSize messageType fmt argList Hsz H1)
    as (m1 & -> & _ & _ & Hc1).
  destruct (FormatLog_text buffer2 bufferSize messageType fmt argList Hsz H2)
    as (m2 & -> & _ & _ & Hc2).
  split; [by eexists|]. simpl. by rewrite Hc1, Hc2.
Qed.

(** X2. A message that fits is not altered: when prefix, payload and line
    end take at most [bufferSize - 1] characters the buffer holds exactly
    their concatenation, with the terminator right behind it. *)
Theorem FormatLog_fits buffer bufferSize messageType fmt argList :
  1 ≤ bufferSize < 2 ^ 32 → Z.of_nat (length buffer) = bufferSize →
  let text := prefix_of messageType ++ cstring (vformat fmt argList)
              ++ newline_of messageType in
  Z.of_nat (length text) ≤ bufferSize - 1 →
  ∃ m', FormatLog buffer bufferSize messageType fmt argList = Some m'
        ∧ cstring m' = text
        ∧ m' !! length text = Some NUL.
Proof.
  intros Hsz Hlen text Hfit.
  destruct (FormatLog_text buffer bufferSize messageType fmt argList Hsz Hlen)
    as (m' & Hrun & _ & Hnul & Hc).
  fold text in Hc. rewrite truncate_all in Hc by done.
  exists m'. split; [done|]. split; [done|].
  destruct (cstring_split m' Hnul) as [rest Hm].
  rewrite Hm, Hc. by apply list_lookup_middle.
Qed.

(** X3. A smaller buffer gives a prefix of what a larger buffer gives: the
    text left in a buffer of capacity [small] is the first [small - 1]
    characters of the text left in a buffer of capacity [large]. *)
Theorem FormatLog_capacity_monotone buffer1 buffer2 small large messageType
    fmt argList :
  1 ≤ small → small ≤ large → large < 2 ^ 32 →
  Z.of_nat (length buffer1) = small → Z.of_nat (length buffer2) = large →
  ∃ m1 m2,
    FormatLog buffer1 small messageType fmt argList = Some m1
    ∧ FormatLog buffer2 large messageType fmt argList = Some m2
    ∧ cstring m1 = truncate (small - 1) (cstring m2).
Proof.
  intros Hs Hle Hl H1 H2.
  destruct (FormatLog_text buffer1 small messageType fmt argList) as
    (m1 & Hr1 & _ & _ & Hc1); [lia|done|].
  destruct (FormatLog_text buffer2 large messageType fmt argList) as
    (m2 & Hr2 & _ & _ & Hc2); [lia|done|].
  exists m1, m2. split; [done|]. split; [done|].
  rewrite Hc1, Hc2, truncate_truncate. f_equal. lia.
Qed.

(** X4. Every call touches the first cell of the buffer: on an allocation
    of no cells FormatLog faults, whatever the stated capacity, the
    message type, the format and the arguments. *)
Theorem FormatLog_empty_allocation bufferSize messageType fmt argList :
  FormatLog [] bufferSize messageType fmt argList = None.
Proof.
  unfold FormatLog.
  assert (Hcpy : ∀ src r,
            (m ← OVR_strcpy [] 0 bufferSize src; Some (m, true)) = Some r →
            r = ([], true)).
  { intros src r. unfold OVR_strcpy. destruct (bufferSize <=? 0).
    - by intros [= <-].
    - rewrite store_bytes_fault; [done | by destruct (truncate _ _) | simpl; lia]. }
  destruct (FormatLog_prefix [] bufferSize messageType) as [[m1 nl]|] eqn:Hp;
    [|done].
  assert (m1 = []) as ->.
  { revert Hp. unfold FormatLog_prefix.
    repeat match goal with
           | |- context [if ?b then _ else _] => destruct b
           end; try done; by intros [= ? ?]%Hcpy. }
  done.
Qed.

End FormatLogMore.

(** ** The sink and the global pointer *)

Section LoggerMore.
Context {hdr : LogHeader} {build : Build} {libc : Libc}.
Implicit Types (w : World) (fmt text : list ascii) (args argList : va_list).

Lemma DefaultLogOutput_set_objects o messageType text w :
  DefaultLogOutput messageType text (set_objects o w)
  = set_objects o (DefaultLogOutput messageType text w).
Proof.
  unfold DefaultLogOutput.
  destruct OVR_OS_WIN32; [|by destruct OVR_OS_ANDROID].
  destruct w as [g ob dc hc sv cm fc out]; simpl.
  destruct hc as [b|]; simpl.
  - by destruct (negb b || IsDebugMessage messageType).
  - by destruct (negb (sv && cm) || IsDebugMessage messageType).
Qed.

(** What a successful LogMessageVarg amounts to. *)
Lemma LogMessageVarg_shape this messageType fmt argList w w' :
  LogMessageVarg this messageType fmt argList w = Some w' →
  w' = w
  ∨ ∃ text, w' = DefaultLogOutput messageType text (enter_FormatLog w).
Proof.
  unfold LogMessageVarg. destruct (objects w !! this) as [self|]; [|done].
  cbn [mbind option_bind].
  destruct (Z.land messageType (LoggingMask self) =? 0);
    [intros [= <-]; by left|].
  destruct (negb OVR_BUILD_DEBUG && IsDebugMessage messageType);
    [intros [= <-]; by left|].
  destruct (FormatLog _ _ _ _ _) as [buffer'|]; [|done].
  cbn [mbind option_bind]. intros [= <-]. right. by eexists.
Qed.

(** What a successful call amounts to, as far as the output and the
    statics of DefaultLogOutput go: it writes nothing, or it is one
    DefaultLogOutput on a state with the same output and statics. *)
Lemma run_shape c w w' :
  run c w = Some w' →
  (output w' = output w ∧ hasConsole w' = hasConsole w
   ∧ (FormatLog_calls w ≤ FormatLog_calls w' ≤ S (FormatLog_calls w))%nat)
  ∨ ∃ messageType text w0,
      w' = DefaultLogOutput messageType text w0
      ∧ output w0 = output w ∧ hasConsole w0 = hasConsole w
      ∧ os_StdHandle_valid w0 = os_StdHandle_valid w
      ∧ os_GetConsoleMode w0 = os_GetConsoleMode w
      ∧ (FormatLog_calls w ≤ FormatLog_calls w0 ≤ S (FormatLog_calls w))%nat.
Proof.
  assert (Hvarg : ∀ this ty fmt args,
            LogMessageVarg this ty fmt args w = Some w' →
            (output w' = output w ∧ hasConsole w' = hasConsole w
             ∧ (FormatLog_calls w ≤ FormatLog_calls w' ≤ S (FormatLog_calls w))%nat)
            ∨ ∃ messageType text w0,
                w' = DefaultLogOutput messageType text w0
                ∧ output w0 = output w ∧ hasConsole w0 = hasConsole w
                ∧ os_StdHandle_valid w0 = os_StdHandle_valid w
                ∧ os_GetConsoleMode w0 = os_GetConsoleMode w
                ∧ (FormatLog_calls w ≤ FormatLog_calls w0 ≤ S (FormatLog_calls w))%nat).
  { intros this ty fmt args [->|[text ->]]%LogMessageVarg_shape.
    - left. repeat split; lia.
    - right. exists ty, text, (enter_FormatLog w). simpl. repeat split; lia. }
  assert (Hfn : ∀ ty fmt args,
            LogFn ty fmt args w = Some w' →
            (output w' = output w ∧ hasConsole w' = hasConsole w
             ∧ (FormatLog_calls w ≤ FormatLog_calls w' ≤ S (FormatLog_calls w))%nat)
            ∨ ∃ messageType text w0,
                w' = DefaultLogOutput messageType text w0
                ∧ output w0 = output w ∧ hasConsole w0 = hasConsole w
                ∧ os_StdHandle_valid w0 = os_StdHandle_valid w
                ∧ os_GetConsoleMode w0 = os_GetConsoleMode w
                ∧ (FormatLog_calls w ≤ FormatLog_calls w0 ≤ S (FormatLog_calls w))%nat).
  { intros ty fmt args. unfold LogFn.
    destruct (negb (OVR_GlobalLog w =? 0)); [apply Hvarg|].
    intros [= <-]. left. repeat split; lia. }
  destruct c; simpl; try (by apply Hvarg); try (by apply Hfn).
  - intros [= <-]. left. simpl. repeat split; lia.
  - intros [= <-]. left. unfold Log_destructor.
    destruct (this =? OVR_GlobalLog w); simpl; repeat split; lia.
  - destruct (FormatLog _ _ _ _ _); [|done]. intros [= <-]. left. simpl.
    repeat split; lia.
  - intros [= <-]. right. exists messageType, formattedText, w.
    repeat split; lia.
  - intros [= <-]. left. simpl. repeat split; lia.
  - intros [= <-]. left. simpl. repeat split; lia.
  - intros [= <-]. left. unfold GetDefaultLog.
    destruct (defaultLog_constructed w); simpl; repeat split; lia.
Qed.

Lemma DefaultLogOutput_hasConsole messageType text w :
  (∀ b, hasConsole w = Some b →
        hasConsole (DefaultLogOutput messageType text w) = Some b)
  ∧ (OVR_OS_WIN32 = false →
     hasConsole (DefaultLogOutput messageType text w) = hasConsole w)
  ∧ (OVR_OS_WIN32 = true → hasConsole w = Some false →
     DefaultLogOutput messageType text w = emit (OutputDebugStringA text) w).
Proof.
  unfold DefaultLogOutput. split; [|split].
  - intros b Hb. rewrite Hb.
    destruct OVR_OS_WIN32; [|by destruct OVR_OS_ANDROID].
    cbn beta iota zeta. rewrite Hb.
    by destruct b, (IsDebugMessage messageType).
  - intros ->. by destruct OVR_OS_ANDROID.
  - intros -> Hc. rewrite Hc. cbn beta iota zeta. by rewrite Hc.
Qed.

(** X5. The whole path of a global logging function on a platform that is
    neither Win32 nor Android: with a live global sink whose mask enables
    the type, and a type that is not debug-only or a debug build, the call
    writes to standard output the first [MaxLogBufferMessageSize - 1]
    characters of prefix, payload and line end, counts one FormatLog, and
    changes nothing else. *)
Theorem LogFn_stdout msgType fmt args w self :
  OVR_OS_WIN32 = false → OVR_OS_ANDROID = false →
  OVR_GlobalLog w ≠ 0 → objects w !! OVR_GlobalLog w = Some self →
  category_enabled msgType (LoggingMask self) = true →
  debug_permitted msgType = true →
  1 ≤ MaxLogBufferMessageSize < 2 ^ 32 →
  Z.of_nat (length (auto_array MaxLogBufferMessageSize)) = MaxLogBufferMessageSize →
  LogFn msgType fmt args w
  = Some (emit (fputs_stdout
                  (truncate (MaxLogBufferMessageSize - 1)
                     (prefix_of msgType ++ cstring (vformat fmt args)
                      ++ newline_of msgType)))
            (enter_FormatLog w)).
Proof.
  intros Hwin Handroid Hg Hself Hcat Hdbg Hmax Hauto.
  unfold LogFn, LogMessageVarg.
  apply Z.eqb_neq in Hg. rewrite Hg, Hself. cbn [negb mbind option_bind].
  unfold category_enabled in Hcat. apply negb_true_iff in Hcat. rewrite Hcat.
  unfold debug_permitted in Hdbg.
  replace (negb OVR_BUILD_DEBUG && IsDebugMessage msgType) with false
    by (by destruct OVR_BUILD_DEBUG, (IsDebugMessage msgType)).
  destruct (FormatLog_text (auto_array MaxLogBufferMessageSize)
              MaxLogBufferMessageSize msgType fmt args Hmax Hauto)
    as (buffer' & -> & _ & _ & Htext).
  cbn [mbind option_bind]. rewrite Htext.
  unfold DefaultLogOutput. by rewrite Hwin, Handroid.
Qed.

(** X6. Destroying the sink the global pointer holds leaves nothing to
    call: afterwards every global logging function returns with the state
    unchanged. *)
Theorem LogFn_after_destructor this msgType fmt args w :
  this = OVR_GlobalLog w →
  LogFn msgType fmt args (Log_destructor this w) = Some (Log_destructor this w).
Proof.
  intros ->. unfold LogFn, Log_destructor. rewrite Z.eqb_refl. done.
Qed.

(** X7. Destroying a sink other than the global one does not disturb
    logging: a global logging function after that destruction does what it
    does before it, and the two orders end in the same state. *)
Theorem LogFn_destructor_commute other msgType fmt args w :
  other ≠ OVR_GlobalLog w →
  LogFn msgType fmt args (Log_destructor other w)
  = Log_destructor other <$> LogFn msgType fmt args w.
Proof.
  intros Hne. pose proof Hne as Hneb. apply Z.eqb_neq in Hneb.
  assert (Hd : ∀ w0, OVR_GlobalLog w0 = OVR_GlobalLog w →
            Log_destructor other w0 = set_objects (delete other (objects w0)) w0).
  { intros w0 Hw0. unfold Log_destructor. by rewrite Hw0, Hneb. }
  rewrite (Hd w eq_refl). unfold LogFn. simpl.
  destruct (OVR_GlobalLog w =? 0); simpl; [by rewrite (Hd w eq_refl)|].
  unfold LogMessageVarg. simpl.
  rewrite lookup_delete_ne by done.
  destruct (objects w !! OVR_GlobalLog w) as [self|]; [|done].
  cbn [mbind option_bind].
  destruct (Z.land msgType (LoggingMask self) =? 0);
    [simpl; by rewrite (Hd w eq_refl)|].
  destruct (negb OVR_BUILD_DEBUG && IsDebugMessage msgType);
    [simpl; by rewrite (Hd w eq_refl)|].
  destruct (FormatLog _ _ _ _ _) as [buffer'|]; [|done].
  cbn [mbind option_bind fmap option_fmap option_map]. f_equal.
  destruct (DefaultLogOutput_effect msgType (cstring buffer') (enter_FormatLog w))
    as (o & _ & _ & Hg & Ho).
  rewrite Hd by done. rewrite Ho. simpl.
  by rewrite <- DefaultLogOutput_set_objects.
Qed.

(** X8. The global pointer never dangles: if it is null or holds a live
    sink, it still is or does after any call, provided SetGlobalLog is given
    null or a live sink. The destructor is what keeps this: it clears the
    pointer when it destroys the sink the pointer holds. *)
Theorem global_valid_preserved c w w' :
  global_valid w → installs_valid c w → run c w = Some w' → global_valid w'.
Proof.
  intros Hvalid Hinst Hrun.
  assert (Hsame : OVR_GlobalLog w' = OVR_GlobalLog w → objects w' = objects w →
                  global_valid w').
  { intros Hg Ho. unfold global_valid. by rewrite Hg, Ho. }
  assert (Hvarg : ∀ this ty fmt args,
            LogMessageVarg this ty fmt args w = Some w' → global_valid w').
  { intros this ty fmt args [->|[text ->]]%LogMessageVarg_shape; [done|].
    destruct (DefaultLogOutput_effect ty text (enter_FormatLog w))
      as (o & _ & _ & Hg & Ho). by apply Hsame. }
  assert (Hfn : ∀ ty fmt args, LogFn ty fmt args w = Some w' → global_valid w').
  { intros ty fmt args. unfold LogFn.
    destruct (negb (OVR_GlobalLog w =? 0)); [apply Hvarg|]. by intros [= <-]. }
  destruct c; simpl in Hrun; try (by eapply Hvarg); try (by eapply Hfn).
  - injection Hrun as <-. unfold global_valid, Log_constructor in *. simpl.
    destruct Hvalid as [?|Hlive]; [by left|]. right.
    destruct (decide (this = OVR_GlobalLog w)) as [->|?].
    + rewrite lookup_insert_eq. by eexists.
    + by rewrite lookup_insert_ne.
  - injection Hrun as <-. unfold global_valid, Log_destructor in *.
    destruct (Z.eqb_spec this (OVR_GlobalLog w)) as [->|?]; simpl; [by left|].
    destruct Hvalid as [?|Hlive]; [by left|]. right.
    by rewrite lookup_delete_ne.
  - destruct (FormatLog _ _ _ _ _); [|done]. by injection Hrun as <-.
  - injection Hrun as <-.
    destruct (DefaultLogOutput_effect messageType formattedText w)
      as (o & _ & _ & Hg & Ho). by apply Hsame.
  - injection Hrun as <-. exact Hinst.
  - by injection Hrun as <-.
  - injection Hrun as <-. unfold GetDefaultLog.
    destruct (defaultLog_constructed w); [done|].
    unfold global_valid, Log_constructor in *. simpl.
    destruct Hvalid as [?|Hlive]; [by left|]. right.
    destruct (decide (defaultLog_address = OVR_GlobalLog w)) as [->|?].
    + rewrite lookup_insert_eq. by eexists.
    + by rewrite lookup_insert_ne.
Qed.

(** X9. A global logging function faults exactly when the global pointer
    is not null and holds no live sink (the buffer of LogMessageVarg being
    an array of at least one character). *)
Theorem LogFn_faults_iff msgType fmt args w :
  1 ≤ MaxLogBufferMessageSize < 2 ^ 32 →
  Z.of_nat (length (auto_array MaxLogBufferMessageSize)) = MaxLogBufferMessageSize →
  LogFn msgType fmt args w = None
  ↔ OVR_GlobalLog w ≠ 0 ∧ objects w !! OVR_GlobalLog w = None.
Proof.
  intros Hmax Hauto. unfold LogFn, LogMessageVarg.
  destruct (Z.eqb_spec (OVR_GlobalLog w) 0) as [Hz|Hnz]; simpl.
  { split; [done | by intros [? _]]. }
  destruct (objects w !! OVR_GlobalLog w) as [self|]; simpl;
    [|by split].
  split; [|by intros [_ ?]].
  destruct (Z.land msgType (LoggingMask self) =? 0); [done|].
  destruct (negb OVR_BUILD_DEBUG && IsDebugMessage msgType); [done|].
  destruct (FormatLog_text (auto_array MaxLogBufferMessageSize)
              MaxLogBufferMessageSize msgType fmt args Hmax Hauto)
    as (buffer' & -> & _). done.
Qed.

Lemma LogMessageVarg_counts this messageType fmt argList w w' :
  LogMessageVarg this messageType fmt argList w = Some w' →
  ∃ added, output w' = output w ++ added ∧ (length added ≤ 1)%nat
           ∧ FormatLog_calls w' = (FormatLog_calls w + length added)%nat.
Proof.
  intros [->|[text ->]]%LogMessageVarg_shape.
  - exists []. rewrite app_nil_r. simpl. repeat split; lia.
  - destruct (DefaultLogOutput_effect messageType text (enter_FormatLog w))
      as (o & Ho & Hf & _ & _).
    exists [o]. rewrite Ho, Hf. simpl. repeat split; lia.
Qed.

(** One call: what it appends and how often it enters FormatLog. *)
Lemma run_counts c w w' :
  run c w = Some w' →
  ∃ added, output w' = output w ++ added ∧ (length added ≤ 1)%nat
           ∧ (FormatLog_calls w ≤ FormatLog_calls w' ≤ S (FormatLog_calls w))%nat
           ∧ (calls_step_directly c = false →
              FormatLog_calls w' = (FormatLog_calls w + length added)%nat).
Proof.
  assert (Hvarg : ∀ this ty fmt args,
            LogMessageVarg this ty fmt args w = Some w' →
            ∃ added, output w' = output w ++ added ∧ (length added ≤ 1)%nat
              ∧ (FormatLog_calls w ≤ FormatLog_calls w' ≤ S (FormatLog_calls w))%nat
              ∧ FormatLog_calls w' = (FormatLog_calls w + length added)%nat).
  { intros this ty fmt args (l & Ho & Hl & Hf)%LogMessageVarg_counts.
    exists l. repeat split; (done || lia). }
  assert (Hfn : ∀ ty fmt args,
            LogFn ty fmt args w = Some w' →
            ∃ added, output w' = output w ++ added ∧ (length added ≤ 1)%nat
              ∧ (FormatLog_calls w ≤ FormatLog_calls w' ≤ S (FormatLog_calls w))%nat
              ∧ FormatLog_calls w' = (FormatLog_calls w + length added)%nat).
  { intros ty fmt args. unfold LogFn.
    destruct (negb (OVR_GlobalLog w =? 0)); [apply Hvarg|].
    intros [= <-]. exists []. rewrite app_nil_r. simpl. repeat split; (done || lia). }
  assert (Hweak : (∃ added, output w' = output w ++ added ∧ (length added ≤ 1)%nat
              ∧ (FormatLog_calls w ≤ FormatLog_calls w' ≤ S (FormatLog_calls w))%nat
              ∧ FormatLog_calls w' = (FormatLog_calls w + length added)%nat) →
            ∃ added, output w' = output w ++ added ∧ (length added ≤ 1)%nat
              ∧ (FormatLog_calls w ≤ FormatLog_calls w' ≤ S (FormatLog_calls w))%nat
              ∧ (calls_step_directly c = false →
                 FormatLog_calls w' = (FormatLog_calls w + length added)%nat)).
  { intros (l & ? & ? & ? & ?). exists l. repeat split; (done || lia). }
  assert (Hquiet : output w' = output w → FormatLog_calls w' = FormatLog_calls w →
            ∃ added, output w' = output w ++ added ∧ (length added ≤ 1)%nat
              ∧ (FormatLog_calls w ≤ FormatLog_calls w' ≤ S (FormatLog_calls w))%nat
              ∧ FormatLog_calls w' = (FormatLog_calls w + length added)%nat).
  { intros Ho Hf. exists []. rewrite app_nil_r. simpl. repeat split; (done || lia). }
  destruct c; simpl;
    try (intros Hrun; apply Hweak; by eapply Hvarg);
    try (intros Hrun; apply Hweak; by eapply Hfn).
  - intros [= <-]. by apply Hweak, Hquiet.
  - intros [= <-]. apply Hweak, Hquiet; unfold Log_destructor;
      by destruct (this =? OVR_GlobalLog w).
  - destruct (FormatLog _ _ _ _ _); [|done]. intros [= <-].
    exists []. rewrite app_nil_r. simpl. repeat split; (lia || done).
  - intros [= <-].
    destruct (DefaultLogOutput_effect messageType formattedText w)
      as (o & Ho & Hf & _ & _).
    exists [o]. rewrite Ho, Hf. simpl. repeat split; (lia || done).
  - intros [= <-]. by apply Hweak, Hquiet.
  - intros [= <-]. by apply Hweak, Hquiet.
  - intros [= <-]. apply Hweak, Hquiet; unfold GetDefaultLog;
      by destruct (defaultLog_constructed w).
Qed.

(** X10. Output is only ever appended to: a run of calls leaves what was
    written in place, and each call adds at most one message and enters
    FormatLog at most once. In a run that reaches FormatLog and
    DefaultLogOutput only through LogMessageVarg, the messages added and the
    entries of FormatLog are equal in number: every message was formatted
    once, and every formatting was written. *)
Theorem run_all_output_appended cs : ∀ w w',
  run_all cs w = Some w' →
  ∃ added, output w' = output w ++ added
           ∧ (length added ≤ length cs)%nat
           ∧ (FormatLog_calls w ≤ FormatLog_calls w')%nat
           ∧ (FormatLog_calls w' ≤ FormatLog_calls w + length cs)%nat
           ∧ (Forall (λ c, calls_step_directly c = false) cs →
              FormatLog_calls w' = (FormatLog_calls w + length added)%nat).
Proof.
  induction cs as [|c cs IH]; intros w w'; simpl.
  - intros [= <-]. exists []. rewrite app_nil_r. simpl. repeat split; lia.
  - destruct (run c w) as [w1|] eqn:Hstep; [|done]. simpl. intros Hrest.
    destruct (IH _ _ Hrest) as (l2 & Ho2 & Hl2 & Hlo2 & Hhi2 & He2).
    destruct (run_counts _ _ _ Hstep) as (l1 & Ho1 & Hl1 & Hb1 & He1).
    exists (l1 ++ l2). rewrite Ho2, Ho1, <- app_assoc, length_app.
    repeat split; [lia..|].
    intros [Hc Hcs]%Forall_cons. rewrite (He2 Hcs), (He1 Hc). lia.
Qed.

End LoggerMore.

(** ** Runs of calls *)

Section LoggerRuns.
Context {hdr : LogHeader} {build : Build} {libc : Libc}.
Implicit Types (w : World) (cs : list Call).

Lemma run_objects c w w' :
  changes_sinks c = false → run c w = Some w' → objects w' = objects w.
Proof.
  intros Hc.
  assert (Hvarg : ∀ this ty fmt args,
            LogMessageVarg this ty fmt args w = Some w' → objects w' = objects w).
  { intros this ty fmt args [->|[text ->]]%LogMessageVarg_shape; [done|].
    by destruct (DefaultLogOutput_effect ty text (enter_FormatLog w))
      as (o & _ & _ & _ & ->). }
  assert (Hfn : ∀ ty fmt args,
            LogFn ty fmt args w = Some w' → objects w' = objects w).
  { intros ty fmt args. unfold LogFn.
    destruct (negb (OVR_GlobalLog w =? 0)); [apply Hvarg|]. by intros [= <-]. }
  destruct c; simpl in *; try done; try (by apply Hvarg); try (by apply Hfn).
  - destruct (FormatLog _ _ _ _ _); [|done]. by intros [= <-].
  - intros [= <-].
    by destruct (DefaultLogOutput_effect messageType formattedText w)
      as (o & _ & _ & _ & ->).
  - by intros [= <-].
  - by intros [= <-].
Qed.

(** X11. Logging and the accessors of the global pointer leave every sink
    as it is: a run without constructor, destructor and GetDefaultLog calls
    ends with the same live sinks holding the same masks. *)
Theorem run_all_sinks_preserved cs : ∀ w w',
  Forall (λ c, changes_sinks c = false) cs →
  run_all cs w = Some w' → objects w' = objects w.
Proof.
  induction cs as [|c cs IH]; intros w w' Hcs; simpl.
  - by intros [= <-].
  - apply Forall_cons in Hcs as [Hc Hcs].
    destruct (run c w) as [w1|] eqn:Hstep; [|done]. simpl. intros Hrest.
    rewrite (IH _ _ Hcs Hrest). by apply (run_objects c).
Qed.

Lemma run_hasConsole c w w' :
  run c w = Some w' →
  (∀ b, hasConsole w = Some b → hasConsole w' = Some b)
  ∧ (OVR_OS_WIN32 = false → hasConsole w' = hasConsole w).
Proof.
  intros [(_ & Hh & _)|(ty & text & w0 & -> & _ & Hh & _)]%run_shape.
  - rewrite Hh. by split.
  - destruct (DefaultLogOutput_hasConsole ty text w0) as (Hkeep & Hoff & _).
    split.
    + intros b Hb. apply Hkeep. by rewrite Hh.
    + intros Hwin. by rewrite Hoff, Hh.
Qed.

(** X12. The console is probed once: after [hasConsole] has been
    initialised no run of calls changes it, whatever the operating system
    answers later; and off Win32 no call initialises it. *)
Theorem run_all_hasConsole_cached cs : ∀ w w',
  run_all cs w = Some w' →
  (∀ b, hasConsole w = Some b → hasConsole w' = Some b)
  ∧ (OVR_OS_WIN32 = false → hasConsole w' = hasConsole w).
Proof.
  induction cs as [|c cs IH]; intros w w'; simpl.
  - intros [= <-]. by split.
  - destruct (run c w) as [w1|] eqn:Hstep; [|done]. simpl. intros Hrest.
    destruct (run_hasConsole _ _ _ Hstep) as [Hk1 Ho1].
    destruct (IH _ _ Hrest) as [Hk2 Ho2]. split.
    + intros b Hb. by apply Hk2, Hk1.
    + intros Hwin. by rewrite Ho2, Ho1.
Qed.

(** X13. On Win32, once the first message has found no console, nothing
    goes to standard output any more: every message a later run of calls
    writes is an OutputDebugStringA, for every message type. *)
Theorem run_all_no_console_no_stdout cs : ∀ w w',
  OVR_OS_WIN32 = true → hasConsole w = Some false →
  run_all cs w = Some w' →
  ∃ added, output w' = output w ++ added
           ∧ Forall (λ o, is_OutputDebugStringA o = true) added.
Proof.
  induction cs as [|c cs IH]; intros w w' Hwin Hc; simpl.
  - intros [= <-]. exists []. by rewrite app_nil_r.
  - destruct (run c w) as [w1|] eqn:Hstep; [|done]. simpl. intros Hrest.
    assert (Hc1 : hasConsole w1 = Some false)
      by (by apply (proj1 (run_hasConsole _ _ _ Hstep))).
    destruct (IH _ _ Hwin Hc1 Hrest) as (l & Hout & Hall).
    destruct (run_shape _ _ _ Hstep) as
      [(Ho & _)|(ty & text & w0 & Hw1 & Ho & Hh & _)].
    + exists l. by rewrite Hout, Ho.
    + exists (OutputDebugStringA text :: l). split.
      * rewrite Hout, Hw1.
        rewrite (proj2 (proj2 (DefaultLogOutput_hasConsole ty text w0)) Hwin)
          by (by rewrite Hh).
        simpl. by rewrite Ho, <- app_assoc.
      * by apply Forall_cons.
Qed.

End LoggerRuns.

(** ** The Win32 Lock over constructions and destructions *)

Section LockMore.
Context {win : Win32Build} {os : Kernel32}.
Implicit Types (w : Process) (ops : list LockOp).

Lemma run_lock_ops_app ops1 ops2 w :
  run_lock_ops (ops1 ++ ops2) w = run_lock_ops ops2 (run_lock_ops ops1 w).
Proof. unfold run_lock_ops. apply fold_left_app. Qed.

(** X14. Once the probe has been made its answer stays: from a state with
    [initTried] set, any sequence of constructions and destructions keeps
    [initTried] and [pInitFn], makes no LoadLibrary or GetProcAddress call,
    and makes exactly one call per operation, chosen by the cached
    address. *)
Theorem Lock_probe_cached ops : ∀ w,
  NTDDI_WIN8_API = false → initTried w = true →
  run_lock_ops ops w
  = {| initTried := true; pInitFn := pInitFn w;
       calls := calls w ++ map (os_call_of (pInitFn w)) ops |}.
Proof.
  induction ops as [|op ops IH]; intros w Hapi Htried.
  - unfold run_lock_ops. simpl. rewrite app_nil_r.
    destruct w; simpl in *. by subst.
  - change (op :: ops) with ([op] ++ ops). rewrite run_lock_ops_app.
    assert (Hstep : run_lock_ops [op] w = os_call (os_call_of (pInitFn w) op) w).
    { unfold run_lock_ops. simpl. destruct op as [cs spinCount|cs]; simpl.
      - by apply Lock_constructor_tried.
      - done. }
    rewrite Hstep, IH by done. simpl. by rewrite <- app_assoc.
Qed.

Lemma count_app (P : OsCall → bool) (l1 l2 : list OsCall) :
  length (filter (λ c, P c = true) (l1 ++ l2))
  = (length (filter (λ c, P c = true) l1)
     + length (filter (λ c, P c = true) l2))%nat.
Proof. by rewrite filter_app, length_app. Qed.

Lemma run_lock_op_counts op w :
  ∃ made, calls (run_lock_op op w) = calls w ++ made
    ∧ length (filter (λ c, is_initialization c = true) made)
      = (if is_Construct op then 1 else 0)%nat
    ∧ length (filter (λ c, is_DeleteCriticalSection c = true) made)
      = (if is_Construct op then 0 else 1)%nat.
Proof.
  destruct op as [cs spinCount|cs]; simpl.
  - unfold Lock_constructor. destruct NTDDI_WIN8_API.
    + eexists. split; [done|]. by split.
    + destruct (initTried w); simpl.
      * destruct (pInitFn w =? 0); simpl; eexists; (split; [done|]); by split.
      * destruct (os_GetProcAddress _ _ _ =? 0); simpl;
          rewrite <- !app_assoc; eexists; (split; [done|]); by split.
  - eexists. split; [done|]. by split.
Qed.

(** X15. Initializations and teardowns are counted one for one, in every
    build and from every state: a sequence of operations adds as many
    initializer calls as it has constructions and as many
    DeleteCriticalSection calls as it has destructions, the probe adding to
    neither. *)
Theorem Lock_calls_balanced ops : ∀ w,
  ∃ made, calls (run_lock_ops ops w) = calls w ++ made
    ∧ length (filter (λ c, is_initialization c = true) made)
      = length (filter (λ op, is_Construct op = true) ops)
    ∧ length (filter (λ c, is_DeleteCriticalSection c = true) made)
      = length (filter (λ op, is_Construct op = false) ops).
Proof.
  induction ops as [|op ops IH]; intros w.
  - exists []. unfold run_lock_ops. simpl. by rewrite app_nil_r.
  - change (op :: ops) with ([op] ++ ops). rewrite run_lock_ops_app.
    change (run_lock_ops [op] w) with (run_lock_op op w).
    destruct (run_lock_op_counts op w) as (l1 & Hc1 & Hi1 & Hd1).
    destruct (IH (run_lock_op op w)) as (l2 & Hc2 & Hi2 & Hd2).
    exists (l1 ++ l2). split; [by rewrite Hc2, Hc1, <- app_assoc|].
    rewrite !count_app, Hi1, Hd1, Hi2, Hd2.
    change ([op] ++ ops) with (op :: ops).
    destruct op as [cs spinCount|cs].
    + rewrite (filter_cons_True (λ op, is_Construct op = true)) by done.
      rewrite (filter_cons_False (λ op, is_Construct op = false)) by done.
      done.
    + rewrite (filter_cons_False (λ op, is_Construct op = true)) by done.
      rewrite (filter_cons_True (λ op, is_Construct op = false)) by done.
      done.
Qed.

(** X16. With the Windows 8 API the statics are never used: any sequence
    of constructions and destructions, from any state, leaves [initTried]
    and [pInitFn] as they were and makes no LoadLibrary or GetProcAddress
    call. *)
Theorem Lock_win8_never_probes ops : ∀ w,
  NTDDI_WIN8_API = true →
  initTried (run_lock_ops ops w) = initTried w
  ∧ pInitFn (run_lock_ops ops w) = pInitFn w
  ∧ ∃ made, calls (run_lock_ops ops w) = calls w ++ made
      ∧ filter (λ c, is_LoadLibrary c = true) made = []
      ∧ filter (λ c, is_GetProcAddress c = true) made = [].
Proof.
  induction ops as [|op ops IH]; intros w Hapi.
  - unfold run_lock_ops. simpl. repeat split. exists []. by rewrite app_nil_r.
  - change (op :: ops) with ([op] ++ ops). rewrite run_lock_ops_app.
    change (run_lock_ops [op] w) with (run_lock_op op w).
    destruct (IH (run_lock_op op w) Hapi) as (-> & -> & l & -> & Hl & Hg).
    assert (Hstep : ∃ c, run_lock_op op w = os_call c w
                         ∧ is_LoadLibrary c = false
                         ∧ is_GetProcAddress c = false).
    { destruct op as [cs spinCount|cs]; simpl.
      - unfold Lock_constructor. rewrite Hapi. by eexists.
      - by eexists. }
    destruct Hstep as (c & -> & Hcl & Hcg). simpl. repeat split.
    exists (c :: l). rewrite <- app_assoc. split; [done|].
    rewrite !filter_cons_False by (by rewrite ?Hcl, ?Hcg). done.
Qed.

End LockMore.

(** ** The further properties at concrete inputs *)

Section MoreExamples.
Local Existing Instances example_header example_libc.

Lemma FormatLog_contents_irrelevant_witness :
  ((1 ≤ 16 < 2 ^ 32) ∧ Z.of_nat (length (auto_array 16)) = 16
   ∧ Z.of_nat (length (cstr "0123456789abcdef")) = 16)
  ∧ is_Some (FormatLog (auto_array 16) 16 Log_Error (cstr "x=%d") [ArgInt 5])
  ∧ cstring <$> FormatLog (auto_array 16) 16 Log_Error (cstr "x=%d") [ArgInt 5]
    = cstring <$> FormatLog (cstr "0123456789abcdef") 16 Log_Error
                    (cstr "x=%d") [ArgInt 5].
Proof.
  assert (Hsz : 1 ≤ 16 < 2 ^ 32) by lia.
  split; [split; [exact Hsz | split; reflexivity]|].
  exact (FormatLog_contents_irrelevant (auto_array 16) (cstr "0123456789abcdef")
           16 Log_Error (cstr "x=%d") [ArgInt 5] Hsz eq_refl eq_refl).
Defined.

Lemma FormatLog_fits_witness :
  ((1 ≤ 32 < 2 ^ 32) ∧ Z.of_nat (length (auto_array 32)) = 32
   ∧ Z.of_nat (length (cstr "Error: x=5" ++ newline)) ≤ 32 - 1)
  ∧ ∃ m', FormatLog (auto_array 32) 32 Log_Error (cstr "x=%d") [ArgInt 5] = Some m'
          ∧ cstring m' = cstr "Error: x=5" ++ newline
          ∧ m' !! 11%nat = Some NUL.
Proof.
  assert (Hsz : 1 ≤ 32 < 2 ^ 32) by lia.
  assert (Hfit : Z.of_nat (length (cstr "Error: x=5" ++ newline)) ≤ 32 - 1)
    by (simpl; lia).
  split; [split; [exact Hsz | split; [reflexivity | exact Hfit]]|].
  exact (FormatLog_fits (auto_array 32) 32 Log_Error (cstr "x=%d") [ArgInt 5]
           Hsz eq_refl Hfit).
Defined.

Lemma FormatLog_capacity_monotone_witness :
  (1 ≤ 4 ∧ 4 ≤ 32 ∧ 32 < 2 ^ 32
   ∧ Z.of_nat (length (auto_array 4)) = 4
   ∧ Z.of_nat (length (auto_array 32)) = 32)
  ∧ ∃ m1 m2,
      FormatLog (auto_array 4) 4 Log_Error (cstr "x=%d") [ArgInt 5] = Some m1
      ∧ FormatLog (auto_array 32) 32 Log_Error (cstr "x=%d") [ArgInt 5] = Some m2
      ∧ cstring m1 = truncate (4 - 1) (cstring m2).
Proof.
  assert (H1 : 1 ≤ 4) by lia. assert (H2 : 4 ≤ 32) by lia.
  assert (H3 : 32 < 2 ^ 32) by lia.
  split; [split; [exact H1 | split; [exact H2 | split; [exact H3 | split; reflexivity]]]|].
  exact (FormatLog_capacity_monotone (auto_array 4) (auto_array 32) 4 32
           Log_Error (cstr "x=%d") [ArgInt 5] H1 H2 H3 eq_refl eq_refl).
Defined.

Lemma example_buffer_size :
  (1 ≤ MaxLogBufferMessageSize < 2 ^ 32)
  ∧ Z.of_nat (length (auto_array MaxLogBufferMessageSize)) = MaxLogBufferMessageSize.
Proof. split; [simpl; lia | vm_compute; reflexivity]. Defined.

Lemma LogFn_stdout_witness :
  (OVR_GlobalLog example_world ≠ 0
   ∧ objects example_world !! OVR_GlobalLog example_world = Some all_categories
   ∧ category_enabled Log_Error (LoggingMask all_categories) = true
   ∧ debug_permitted (build := release_build false false) Log_Error = true)
  ∧ LogFn (build := release_build false false) Log_Error (cstr "x=%d")
      [ArgInt 5] example_world
    = Some (emit (fputs_stdout (cstr "Error: x=5" ++ newline))
              (enter_FormatLog example_world)).
Proof.
  assert (Hne : OVR_GlobalLog example_world ≠ 0) by (simpl; lia).
  split; [split; [exact Hne | repeat split]|].
  exact (LogFn_stdout (build := release_build false false) Log_Error
           (cstr "x=%d") [ArgInt 5] example_world all_categories
           eq_refl eq_refl Hne eq_refl eq_refl eq_refl
           (proj1 example_buffer_size) (proj2 example_buffer_size)).
Defined.

Lemma LogFn_after_destructor_witness :
  0x1000 = OVR_GlobalLog example_world
  ∧ LogFn (build := release_build false false) Log_Error (cstr "x=%d")
      [ArgInt 5] (Log_destructor 0x1000 example_world)
    = Some (Log_destructor 0x1000 example_world).
Proof.
  split; [reflexivity|].
  exact (LogFn_after_destructor (build := release_build false false)
           0x1000 Log_Error (cstr "x=%d") [ArgInt 5] example_world eq_refl).
Defined.

Lemma LogFn_destructor_commute_witness :
  0x2000 ≠ OVR_GlobalLog example_world
  ∧ LogFn (build := release_build false false) Log_Error (cstr "x=%d")
      [ArgInt 5] (Log_destructor 0x2000 example_world)
    = Log_destructor 0x2000
      <$> LogFn (build := release_build false false) Log_Error (cstr "x=%d")
            [ArgInt 5] example_world.
Proof.
  assert (Hne : 0x2000 ≠ OVR_GlobalLog example_world) by (simpl; lia).
  split; [exact Hne|].
  exact (LogFn_destructor_commute (build := release_build false false)
           0x2000 Log_Error (cstr "x=%d") [ArgInt 5] example_world Hne).
Defined.

Lemma global_valid_preserved_witness :
  (global_valid example_world
   ∧ installs_valid (Call_Log_destructor 0x1000) example_world
   ∧ run (build := release_build false false) (Call_Log_destructor 0x1000)
       example_world
     = Some (Log_destructor 0x1000 example_world))
  ∧ global_valid (Log_destructor 0x1000 example_world).
Proof.
  assert (Hv : global_valid example_world)
    by (right; exists all_categories; reflexivity).
  split; [split; [exact Hv | split; [exact I | reflexivity]]|].
  exact (global_valid_preserved (build := release_build false false)
           (Call_Log_destructor 0x1000) example_world
           (Log_destructor 0x1000 example_world) Hv I eq_refl).
Defined.

Lemma LogFn_faults_iff_witness :
  ((1 ≤ MaxLogBufferMessageSize < 2 ^ 32)
   ∧ Z.of_nat (length (auto_array MaxLogBufferMessageSize))
     = MaxLogBufferMessageSize
   ∧ OVR_GlobalLog (SetGlobalLog 0x3000 example_world) ≠ 0
   ∧ objects (SetGlobalLog 0x3000 example_world)
       !! OVR_GlobalLog (SetGlobalLog 0x3000 example_world) = None)
  ∧ LogFn (build := release_build false false) Log_Error (cstr "x=%d")
      [ArgInt 5] (SetGlobalLog 0x3000 example_world) = None.
Proof.
  assert (Hne : OVR_GlobalLog (SetGlobalLog 0x3000 example_world) ≠ 0)
    by (simpl; lia).
  split; [split; [exact (proj1 example_buffer_size)
                 | split; [exact (proj2 example_buffer_size)
                          | split; [exact Hne | reflexivity]]]|].
  exact (proj2 (LogFn_faults_iff (build := release_build false false)
                  Log_Error (cstr "x=%d") [ArgInt 5]
                  (SetGlobalLog 0x3000 example_world)
                  (proj1 example_buffer_size) (proj2 example_buffer_size))
           (conj Hne eq_refl)).
Defined.

Lemma run_all_output_appended_witness :
  ∃ w', run_all (build := release_build true false) example_calls example_world
        = Some w'
        ∧ ∃ added, output w' = output example_world ++ added
            ∧ (length added ≤ length example_calls)%nat
            ∧ (FormatLog_calls example_world ≤ FormatLog_calls w')%nat
            ∧ (FormatLog_calls w'
               ≤ FormatLog_calls example_world + length example_calls)%nat
            ∧ (Forall (λ c, calls_step_directly c = false) example_calls →
               FormatLog_calls w'
               = (FormatLog_calls example_world + length added)%nat).
Proof.
  assert (Hrun : ∃ w', run_all (build := release_build true false)
                         example_calls example_world = Some w')
    by (vm_compute; eexists; reflexivity).
  destruct Hrun as [w' Hrun]. exists w'. split; [exact Hrun|].
  exact (run_all_output_appended (build := release_build true false)
           example_calls example_world w' Hrun).
Defined.

Lemma run_all_sinks_preserved_witness :
  ∃ w', (Forall (λ c, changes_sinks c = false) example_calls
         ∧ run_all (build := release_build true false) example_calls
             example_world = Some w')
        ∧ objects w' = objects example_world.
Proof.
  assert (Hcs : Forall (λ c, changes_sinks c = false) example_calls)
    by (repeat constructor).
  assert (Hrun : ∃ w', run_all (build := release_build true false)
                         example_calls example_world = Some w')
    by (vm_compute; eexists; reflexivity).
  destruct Hrun as [w' Hrun]. exists w'. split; [split; [exact Hcs | exact Hrun]|].
  exact (run_all_sinks_preserved (build := release_build true false)
           example_calls example_world w' Hcs Hrun).
Defined.

Lemma run_all_hasConsole_cached_witness :
  ∃ w', (run_all (build := release_build true false) example_calls
           (set_hasConsole (Some false) example_world) = Some w'
         ∧ hasConsole (set_hasConsole (Some false) example_world) = Some false)
        ∧ hasConsole w' = Some false.
Proof.
  assert (Hrun : ∃ w', run_all (build := release_build true false)
                         example_calls
                         (set_hasConsole (Some false) example_world) = Some w')
    by (vm_compute; eexists; reflexivity).
  destruct Hrun as [w' Hrun]. exists w'. split; [split; [exact Hrun | reflexivity]|].
  exact (proj1 (run_all_hasConsole_cached (build := release_build true false)
                  example_calls (set_hasConsole (Some false) example_world)
                  w' Hrun) false eq_refl).
Defined.

Lemma run_all_no_console_no_stdout_witness :
  ∃ w', (OVR_OS_WIN32 (Build := release_build true false) = true
         ∧ hasConsole (set_hasConsole (Some false) example_world) = Some false
         ∧ run_all (build := release_build true false) example_calls
             (set_hasConsole (Some false) example_world) = Some w')
        ∧ ∃ added,
            output w'
            = output (set_hasConsole (Some false) example_world) ++ added
            ∧ Forall (λ o, is_OutputDebugStringA o = true) added.
Proof.
  assert (Hrun : ∃ w', run_all (build := release_build true false)
                         example_calls
                         (set_hasConsole (Some false) example_world) = Some w')
    by (vm_compute; eexists; reflexivity).
  destruct Hrun as [w' Hrun]. exists w'.
  split; [split; [reflexivity | split; [reflexivity | exact Hrun]]|].
  exact (run_all_no_console_no_stdout (build := release_build true false)
           example_calls (set_hasConsole (Some false) example_world) w'
           eq_refl eq_refl Hrun).
Defined.

Lemma Lock_probe_cached_witness :
  (NTDDI_WIN8_API (Win32Build := legacy_build) = false
   ∧ initTried probed_process = true)
  ∧ run_lock_ops (win := legacy_build) (os := kernel32_without_spin)
      [Construct 0x10 4000; Destroy 0x10; Construct 0x20 0] probed_process
    = {| initTried := true; pInitFn := 0x7700;
         calls := [call_pInitFn 0x7700 0x10 4000; DeleteCriticalSection 0x10;
                   call_pInitFn 0x7700 0x20 0] |}.
Proof.
  split; [split; reflexivity|].
  exact (Lock_probe_cached (win := legacy_build) (os := kernel32_without_spin)
           [Construct 0x10 4000; Destroy 0x10; Construct 0x20 0]
           probed_process eq_refl eq_refl).
Defined.

Lemma Lock_win8_never_probes_witness :
  NTDDI_WIN8_API (Win32Build := win8_build) = true
  ∧ initTried (run_lock_ops (win := win8_build) (os := kernel32_with_spin)
                 [Construct 0x10 4000; Destroy 0x10] start) = false
  ∧ pInitFn (run_lock_ops (win := win8_build) (os := kernel32_with_spin)
               [Construct 0x10 4000; Destroy 0x10] start) = 0.
Proof.
  split; [reflexivity|].
  destruct (Lock_win8_never_probes (win := win8_build)
              (os := kernel32_with_spin) [Construct 0x10 4000; Destroy 0x10]
              start eq_refl) as (Ht & Hp & _).
  split; [exact Ht | exact Hp].
Defined.

End MoreExamples.

Section ConsoleExamples.
Local Existing Instances example_header example_libc.

(** C9 as stated fails on Win32: whether a console is attached is asked
    once and the answer is kept. A process that found no console at its
    first message and has one now still writes an Error message to the
    debugger; a process that found one and has lost it still writes to
    standard output. So the channel does not follow the console of the
    moment. *)
Lemma DefaultLogOutput_stale_console :
  (os_StdHandle_valid console_appeared && os_GetConsoleMode console_appeared = true
   ∧ IsDebugMessage Log_Error = false
   ∧ output (DefaultLogOutput (build := release_build true false) Log_Error
               (cstr "disk full") console_appeared)
     = [OutputDebugStringA (cstr "disk full")])
  ∧ (os_StdHandle_valid console_gone && os_GetConsoleMode console_gone = false
     ∧ output (DefaultLogOutput (build := release_build true false) Log_Error
                 (cstr "disk full") console_gone)
       = [fputs_stdout (cstr "disk full")])
  ∧ ¬ (∀ w messageType text,
         let attached := os_StdHandle_valid w && os_GetConsoleMode w in
         output (DefaultLogOutput (build := release_build true false)
                   messageType text w)
         = output w ++
           [if attached && negb (IsDebugMessage messageType)
            then fputs_stdout text else OutputDebugStringA text]).
Proof.
  split; [by vm_compute|]. split; [by vm_compute|].
  intros Hclaim.
  specialize (Hclaim console_appeared Log_Error (cstr "disk full")).
  vm_compute in Hclaim. done.
Qed.

End ConsoleExamples.
